(** * VRPTW ablation dashboard: the data loader ([data_loader.py])

    A shallow embedding of the loader's functions and the properties
    its specification states about them.

    Conventions of the embedding.
    - A Python [str] is a [string] (a sequence of 8-bit characters);
      the model is exact on ASCII text, the only text the regular
      expressions and the file-name rules of the loader look at; a
      character above 127 is never a word character here.
    - A Python number is a binary64 float ([PrimFloat.float]).  An
      integer literal of a JSON file is read as the float of the same
      value, so [1] and [1.0] are one value.
    - A Python exception is the [Raise] result of the [outcome] type;
      [try ... except Exception] is a match on it.
    - A pandas column is the list of its cells, kept as the Python
      objects they were built from: [None] is [JNull], [np.nan] is
      [JNum nan], and both are "missing" ([isna]).  Arithmetic on
      columns is Python's arithmetic cell by cell, which is what pandas
      computes on columns of numbers and missing values, the columns
      the solver writes.
    - [load_ablation_data] is a function of the directory tree below
      its base path; the cache decorator and the messages it prints
      are left out. *)

From Stdlib Require Import PrimFloat.
From Stdlib Require SpecFloat FloatOps.
From Stdlib Require Import ZArith List String Ascii Bool Arith Lia Permutation Sorted.
Import ListNotations.

Local Open Scope string_scope.
Local Open Scope list_scope.

(* ================================================================= *)
(** ** Exceptions *)

Inductive exn : Set :=
| TypeError
| AttributeError
| KeyError
| IndexError
| JSONDecodeError
| NotADirectoryError
| PermissionError.

Inductive outcome (A : Type) : Type :=
| Ok (a : A)
| Raise (e : exn).

Arguments Ok {A} a.
Arguments Raise {A} e.

Definition bind {A B : Type} (m : outcome A) (f : A -> outcome B) : outcome B :=
  match m with
  | Ok a => f a
  | Raise e => Raise e
  end.

Notation "x <- m ;; k" := (bind m (fun x => k))
  (at level 61, m at next level, right associativity).

(* ================================================================= *)
(** ** Text *)

Module Text.

Definition chars (s : string) : list ascii := list_ascii_of_string s.
Definition text (l : list ascii) : string := string_of_list_ascii l.

Definition code (c : ascii) : nat := nat_of_ascii c.

Definition between (lo hi : nat) (c : ascii) : bool :=
  ((lo <=? code c) && (code c <=? hi))%nat.

Definition is_digit : ascii -> bool := between 48 57.
Definition is_upper : ascii -> bool := between 65 90.
Definition is_lower : ascii -> bool := between 97 122.

(** [\w] of Python's [re] on ASCII text: letters, digits, underscore. *)
Definition is_word (c : ascii) : bool :=
  is_digit c || is_upper c || is_lower c || Ascii.eqb c "_".

Fixpoint starts_with (p s : list ascii) : bool :=
  match p, s with
  | [], _ => true
  | _ :: _, [] => false
  | a :: p', b :: s' => Ascii.eqb a b && starts_with p' s'
  end.

(** [s.startswith(p)] and [s.endswith(p)] *)
Definition startswith (p s : string) : bool := starts_with (chars p) (chars s).
Definition endswith (p s : string) : bool :=
  starts_with (rev (chars p)) (rev (chars s)).

(** [p in s] for two strings: [p] occurs somewhere in [s]. *)
Fixpoint occurs (p s : list ascii) : bool :=
  starts_with p s ||
  match s with
  | [] => false
  | _ :: s' => occurs p s'
  end.

Definition contains (p s : string) : bool := occurs (chars p) (chars s).

(** [s.replace(old, new)] for a non-empty [old]: every occurrence,
    left to right, without overlap.  [skip] counts the characters of a
    match that are still to be dropped. *)
Fixpoint replace_from (old new : list ascii) (skip : nat) (s : list ascii)
  : list ascii :=
  match s with
  | [] => []
  | c :: s' =>
    match skip with
    | S k => replace_from old new k s'
    | O =>
      if starts_with old s
      then new ++ replace_from old new (pred (List.length old)) s'
      else c :: replace_from old new 0 s'
    end
  end.

(** With an empty [old] Python puts [new] before every character and
    at the end. *)
Fixpoint intersperse (new : list ascii) (s : list ascii) : list ascii :=
  match s with
  | [] => new
  | c :: s' => new ++ c :: intersperse new s'
  end.

Definition replace (old new s : string) : string :=
  match chars old with
  | [] => text (intersperse (chars new) (chars s))
  | o => text (replace_from o (chars new) 0 (chars s))
  end.

End Text.

(* ================================================================= *)
(** ** Regular expressions

    The fragment of Python's [re] that the loader uses: literal
    characters and classes, sequence, alternation (leftmost first, so
    [Alt r Eps] is the greedy [r?]), and the zero-width [\b], [^] and [$]. *)

Module Re.

Inductive re : Type :=
| Eps
| Chr (p : ascii -> bool)
| Seq (a b : re)
| Alt (a b : re)
| WordB
| Bol
| Eol.

Definition Opt (r : re) : re := Alt r Eps.

Fixpoint lit_chars (l : list ascii) : re :=
  match l with
  | [] => Eps
  | c :: l' => Seq (Chr (Ascii.eqb c)) (lit_chars l')
  end.

Definition lit (s : string) : re := lit_chars (Text.chars s).

(** A character class written as the string of its members. *)
Definition one_of (s : string) : re :=
  Chr (fun c => existsb (Ascii.eqb c) (Text.chars s)).

Definition word_opt (c : option ascii) : bool :=
  match c with
  | Some a => Text.is_word a
  | None => false
  end.

(** [\b]: exactly one of the two neighbours is a word character. *)
Definition boundary (prev : option ascii) (s : list ascii) : bool :=
  xorb (word_opt prev) (word_opt (hd_error s)).

(** [$] without MULTILINE: the end of the text, or just before a
    newline that ends it. *)
Definition at_end (s : list ascii) : bool :=
  match s with
  | [] => true
  | [c] => Ascii.eqb c "010"
  | _ => false
  end.

(** Backtracking matcher in continuation style.  [prev] is the
    character before the current position, [n] the number of
    characters consumed so far; the result is the length of the
    first match the backtracking search finds. *)
Fixpoint exec (r : re) (prev : option ascii) (s : list ascii) (n : nat)
         (k : option ascii -> list ascii -> nat -> option nat) : option nat :=
  match r with
  | Eps => k prev s n
  | Chr p =>
    match s with
    | c :: s' => if p c then k (Some c) s' (S n) else None
    | [] => None
    end
  | Seq a b => exec a prev s n (fun prev' s' n' => exec b prev' s' n' k)
  | Alt a b =>
    match exec a prev s n k with
    | Some m => Some m
    | None => exec b prev s n k
    end
  | WordB => if boundary prev s then k prev s n else None
  | Bol => match prev with None => k prev s n | Some _ => None end
  | Eol => if at_end s then k prev s n else None
  end.

Definition match_at (r : re) (prev : option ascii) (s : list ascii) : option nat :=
  exec r prev s 0 (fun _ _ n => Some n).

(** [re.match(r, s)]: a match at the start of [s]; the result is the
    matched text. *)
Definition match_ (r : re) (s : string) : option string :=
  match match_at r None (Text.chars s) with
  | Some n => Some (Text.text (firstn n (Text.chars s)))
  | None => None
  end.

(** [re.sub(r, repl, s)] from a position on: the leftmost match is
    replaced, the search resumes after it.  [skip] counts the
    characters of the current match still to be dropped. *)
Fixpoint sub_from (r : re) (repl : list ascii) (prev : option ascii)
         (skip : nat) (s : list ascii) : list ascii :=
  match skip with
  | S j =>
    match s with
    | [] => []
    | c :: s' => sub_from r repl (Some c) j s'
    end
  | O =>
    match match_at r prev s, s with
    | Some (S m), c :: s' => repl ++ sub_from r repl (Some c) m s'
    | Some _, c :: s' => repl ++ c :: sub_from r repl (Some c) 0 s'
    | Some _, [] => repl
    | None, c :: s' => c :: sub_from r repl (Some c) 0 s'
    | None, [] => []
    end
  end.

Definition sub (r : re) (repl s : string) : string :=
  Text.text (sub_from r (Text.chars repl) None 0 (Text.chars s)).

End Re.

(* ================================================================= *)
(** ** [extract_instance_name] *)

(** [r'\.(txt|json)$'] *)
Definition extension_re : Re.re :=
  Re.Seq (Re.lit ".") (Re.Seq (Re.Alt (Re.lit "txt") (Re.lit "json")) Re.Eol).

Definition extract_instance_name (filename : string) : string :=
  let base_name := Re.sub extension_re EmptyString filename in
  if Text.startswith "BACK_jy_" base_name then
    let instance_part := Text.replace "BACK_jy_" EmptyString base_name in
    (instance_part ++ "_BACK")%string
  else if Text.endswith "_better" base_name then
    let instance_part :=
      Text.replace "_better" EmptyString (Text.replace "jy_" EmptyString base_name) in
    (instance_part ++ "_better")%string
  else if Text.startswith "jy_" base_name then
    Text.replace "jy_" EmptyString base_name
  else base_name.

(* ================================================================= *)
(** ** Customer count and instance type of a dataset name *)

(** [r'^([CR][12])'] *)
Definition instance_type_re : Re.re :=
  Re.Seq Re.Bol (Re.Seq (Re.one_of "CR") (Re.one_of "12")).

Definition instance_type_of (dataset : string) : string :=
  match Re.match_ instance_type_re dataset with
  | Some g => g
  | None => "Unknown"
  end.

Definition num_cust_of (dataset : string) : nat :=
  if Text.contains "100" dataset then 100
  else if Text.contains "50" dataset then 50
  else 25.

Definition datasets : list string :=
  [ "C1_numCust_25"; "C1_numCust_50"; "C1_numCust_100";
    "C2_numCust_100";
    "R1_numCust_50"; "R1_numCust_100";
    "RC1_numCust_25"; "RC1_numCust_50"; "RC1_numCust_100";
    "RC2_numCust_25"; "RC2_numCust_50" ].

Definition base_conditions : list string :=
  [ "normal"; "cuts_off_graphs_on"; "cuts_off_graph_on";
    "no_ub_use_remove"; "no_cuts_or_graphs" ].

(* ================================================================= *)
(** ** Numbers *)

Module Num.

Definition float : Set := PrimFloat.float.

Definition nan : float := PrimFloat.nan.
Definition zero : float := PrimFloat.zero.
Definition is_nan (x : float) : bool := PrimFloat.is_nan x.
Definition add (x y : float) : float := PrimFloat.add x y.

(** The float nearest to an integer (ties to even). *)
Definition of_Z (z : Z) : float :=
  FloatOps.SF2Prim
    (SpecFloat.binary_normalize FloatOps.prec FloatOps.emax z 0 false).

Definition of_nat (n : nat) : float := of_Z (Z.of_nat n).

(** The float nearest to [(-1)^neg * m * 10^e], as [float()] gives it
    for a decimal literal. *)
Definition of_decimal (neg : bool) (m : Z) (e : Z) : float :=
  match m with
  | Zpos p =>
    if (0 <=? e)%Z then of_Z ((if neg then -1 else 1) * (m * 10 ^ e))%Z
    else
      FloatOps.SF2Prim
        (SpecFloat.SFdiv FloatOps.prec FloatOps.emax
           (SpecFloat.S754_finite neg p 0)
           (SpecFloat.S754_finite false (Z.to_pos (10 ^ (- e))) 0))
  | _ => if neg then PrimFloat.opp zero else zero
  end.

End Num.

(* ================================================================= *)
(** ** Values of a decoded JSON document *)

#[warnings="-register-all"]
Inductive json : Type :=
| JNull
| JBool (b : bool)
| JNum (x : Num.float)
| JStr (s : string)
| JArr (l : list json)
| JObj (d : list (string * json)).

Definition dict : Type := list (string * json).

(** [np.nan] *)
Definition np_nan : json := JNum Num.nan.

Fixpoint dict_get (k : string) (d : dict) : option json :=
  match d with
  | [] => None
  | (k', v) :: d' => if String.eqb k k' then Some v else dict_get k d'
  end.

(** [k in d] *)
Definition dict_mem (k : string) (d : dict) : bool :=
  match dict_get k d with
  | Some _ => true
  | None => false
  end.

(** [d.get(k, default)] *)
Definition dict_get_default (k : string) (default : json) (d : dict) : json :=
  match dict_get k d with
  | Some v => v
  | None => default
  end.

(** [d[k] = v]: a key already present keeps its place. *)
Fixpoint dict_set (k : string) (v : json) (d : dict) : dict :=
  match d with
  | [] => [(k, v)]
  | (k', v') :: d' =>
    if String.eqb k k' then (k, v) :: d' else (k', v') :: dict_set k v d'
  end.

(** [dict(pairs)] *)
Definition dict_of_pairs (pairs : list (string * json)) : dict :=
  fold_left (fun d kv => dict_set (fst kv) (snd kv) d) pairs [].

(* ================================================================= *)
(** ** [json.loads]

    The decoder of CPython's [json] package (strict mode, default
    hooks), on ASCII text.  A [\uXXXX] escape is stored as the UTF-8
    bytes of its code point.  The interpreter's recursion limit is not
    modelled. *)

Module Json.

Inductive parsed (A : Type) : Type :=
| Parsed (a : A) (rest : list ascii)
| Malformed
| NoFuel.

Arguments Parsed {A} a rest.
Arguments Malformed {A}.
Arguments NoFuel {A}.

Definition dquote : ascii := "034"%char.

Definition is_ws (c : ascii) : bool :=
  Ascii.eqb c " " || Ascii.eqb c "009" || Ascii.eqb c "010" || Ascii.eqb c "013".

Fixpoint skip_ws (s : list ascii) : list ascii :=
  match s with
  | c :: s' => if is_ws c then skip_ws s' else s
  | [] => []
  end.

(** *** Strings *)

Definition hex_value (c : ascii) : option N :=
  let n := N_of_ascii c in
  if Text.is_digit c then Some (n - 48)%N
  else if Text.between 97 102 c then Some (n - 87)%N
  else if Text.between 65 70 c then Some (n - 55)%N
  else None.

Definition hex4 (a b c d : ascii) : option N :=
  match hex_value a, hex_value b, hex_value c, hex_value d with
  | Some x, Some y, Some z, Some w => Some (((x * 16 + y) * 16 + z) * 16 + w)%N
  | _, _, _, _ => None
  end.

Definition byte (n : N) : ascii := ascii_of_N n.

Definition utf8 (cp : N) : list ascii :=
  if (cp <? 128)%N then [byte cp]
  else if (cp <? 2048)%N then
    [byte (192 + cp / 64); byte (128 + cp mod 64)]
  else if (cp <? 65536)%N then
    [byte (224 + cp / 4096); byte (128 + (cp / 64) mod 64); byte (128 + cp mod 64)]
  else
    [byte (240 + cp / 262144); byte (128 + (cp / 4096) mod 64);
     byte (128 + (cp / 64) mod 64); byte (128 + cp mod 64)].

Definition is_high_surrogate (cp : N) : bool := (55296 <=? cp)%N && (cp <=? 56319)%N.
Definition is_low_surrogate (cp : N) : bool := (56320 <=? cp)%N && (cp <=? 57343)%N.

Definition join_surrogates (hi lo : N) : N :=
  (65536 + (hi - 55296) * 1024 + (lo - 56320))%N.

Definition simple_escape (c : ascii) : option ascii :=
  if Ascii.eqb c dquote then Some dquote
  else if Ascii.eqb c "\" then Some "\"%char
  else if Ascii.eqb c "/" then Some "/"%char
  else if Ascii.eqb c "b" then Some "008"%char
  else if Ascii.eqb c "f" then Some "012"%char
  else if Ascii.eqb c "n" then Some "010"%char
  else if Ascii.eqb c "r" then Some "013"%char
  else if Ascii.eqb c "t" then Some "009"%char
  else None.

(** [scanstring]: the text after the opening quote, up to and past
    the closing one.  [acc] holds the decoded characters, last first. *)
Fixpoint scanstring (acc : list ascii) (s : list ascii)
  : option (string * list ascii) :=
  match s with
  | [] => None
  | c :: s1 =>
    if Ascii.eqb c dquote then Some (Text.text (rev acc), s1)
    else if Ascii.eqb c "\" then
      match s1 with
      | [] => None
      | e :: s2 =>
        if Ascii.eqb e "u" then
          match s2 with
          | h1 :: h2 :: h3 :: h4 :: s3 =>
            match hex4 h1 h2 h3 h4 with
            | None => None
            | Some cp =>
              match s3 with
              | b :: u :: l1 :: l2 :: l3 :: l4 :: s4 =>
                if is_high_surrogate cp && Ascii.eqb b "\" && Ascii.eqb u "u" then
                  match hex4 l1 l2 l3 l4 with
                  | None => None
                  | Some cp2 =>
                    if is_low_surrogate cp2
                    then scanstring (rev (utf8 (join_surrogates cp cp2)) ++ acc) s4
                    else scanstring (rev (utf8 cp) ++ acc) s3
                  end
                else scanstring (rev (utf8 cp) ++ acc) s3
              | _ => scanstring (rev (utf8 cp) ++ acc) s3
              end
            end
          | _ => None
          end
        else
          match simple_escape e with
          | Some d => scanstring (d :: acc) s2
          | None => None
          end
      end
    else if (Text.code c <? 32)%nat then None
    else scanstring (c :: acc) s1
  end.

(** *** Numbers: an optional minus sign, then [0] or a digit string
    without leading zero; an optional fraction (a dot and at least
    one digit); an optional exponent ([e] or [E], an optional sign,
    at least one digit). *)

Fixpoint take_digits (s : list ascii) : list ascii * list ascii :=
  match s with
  | c :: s' =>
    if Text.is_digit c
    then let (ds, rest) := take_digits s' in (c :: ds, rest)
    else ([], s)
  | [] => ([], [])
  end.

Definition digits_value (ds : list ascii) : Z :=
  fold_left (fun acc c => (acc * 10 + (Z.of_nat (Text.code c) - 48))%Z) ds 0%Z.

Definition integer_part (s : list ascii) : option (list ascii * list ascii) :=
  match s with
  | c :: s' =>
    if Ascii.eqb c "0" then Some ([c], s')
    else if Text.is_digit c then Some (take_digits s)
    else None
  | [] => None
  end.

Definition fraction_part (s : list ascii) : list ascii * list ascii :=
  match s with
  | dot :: s' =>
    if Ascii.eqb dot "." then
      match take_digits s' with
      | ([], _) => ([], s)
      | (ds, rest) => (dot :: ds, rest)
      end
    else ([], s)
  | [] => ([], s)
  end.

(** The exponent group: its sign, its digits and the rest, when the
    group matches. *)
Definition exponent_part (s : list ascii) : option (bool * list ascii * list ascii) :=
  match s with
  | e :: s1 =>
    if Ascii.eqb e "e" || Ascii.eqb e "E" then
      let '(neg, s2) :=
        match s1 with
        | sg :: s2 =>
          if Ascii.eqb sg "-" then (true, s2)
          else if Ascii.eqb sg "+" then (false, s2)
          else (false, s1)
        | [] => (false, s1)
        end in
      match take_digits s2 with
      | ([], _) => None
      | (ds, rest) => Some (neg, ds, rest)
      end
    else None
  | [] => None
  end.

Definition match_number (s : list ascii) : option (Num.float * list ascii) :=
  let '(neg, s0) :=
    match s with
    | c :: s' => if Ascii.eqb c "-" then (true, s') else (false, s)
    | [] => (false, s)
    end in
  match integer_part s0 with
  | None => None
  | Some (ints, s1) =>
    let '(frac, s2) := fraction_part s1 in
    match frac, exponent_part s2 with
    | [], None =>
      (* an integer literal: int(integer) *)
      let v := digits_value ints in
      Some (Num.of_Z (if neg then - v else v), s2)
    | _, None =>
      Some (Num.of_decimal neg (digits_value (ints ++ tl frac))
              (- Z.of_nat (List.length (tl frac))), s2)
    | _, Some (eneg, eds, s3) =>
      let ev := digits_value eds in
      Some (Num.of_decimal neg (digits_value (ints ++ tl frac))
              ((if eneg then - ev else ev) - Z.of_nat (List.length (tl frac))), s3)
    end
  end.

(** *** Values *)

Definition literal (w : string) (s : list ascii) : bool :=
  Text.starts_with (Text.chars w) s.

Definition after (w : string) (s : list ascii) : list ascii :=
  skipn (String.length w) s.

(** [scan_once] reads one value at the head of [s]; [array_items]
    and [object_items] are the loops of [JSONArray] and [JSONObject],
    entered where a value, resp. the text after a key's opening
    quote, starts. *)
Fixpoint scan_once (fuel : nat) (s : list ascii) {struct fuel} : parsed json :=
  match fuel with
  | O => NoFuel
  | S fuel' =>
    match s with
    | [] => Malformed
    | c :: s1 =>
      if Ascii.eqb c dquote then
        match scanstring [] s1 with
        | Some (str, rest) => Parsed (JStr str) rest
        | None => Malformed
        end
      else if Ascii.eqb c "{" then
        match skip_ws s1 with
        | c2 :: s2 =>
          if Ascii.eqb c2 "}" then Parsed (JObj []) s2
          else if Ascii.eqb c2 dquote then object_items fuel' [] s2
          else Malformed
        | [] => Malformed
        end
      else if Ascii.eqb c "[" then
        match skip_ws s1 with
        | c2 :: s2 =>
          if Ascii.eqb c2 "]" then Parsed (JArr []) s2
          else array_items fuel' [] (c2 :: s2)
        | [] => Malformed
        end
      else if literal "null" s then Parsed JNull (after "null" s)
      else if literal "true" s then Parsed (JBool true) (after "true" s)
      else if literal "false" s then Parsed (JBool false) (after "false" s)
      else
        match match_number s with
        | Some (x, rest) => Parsed (JNum x) rest
        | None =>
          if literal "NaN" s then Parsed (JNum Num.nan) (after "NaN" s)
          else if literal "Infinity" s
          then Parsed (JNum PrimFloat.infinity) (after "Infinity" s)
          else if literal "-Infinity" s
          then Parsed (JNum PrimFloat.neg_infinity) (after "-Infinity" s)
          else Malformed
        end
    end
  end

with array_items (fuel : nat) (acc : list json) (s : list ascii)
     {struct fuel} : parsed json :=
  match fuel with
  | O => NoFuel
  | S fuel' =>
    match scan_once fuel' s with
    | Parsed v rest =>
      match skip_ws rest with
      | c :: s1 =>
        if Ascii.eqb c "]" then Parsed (JArr (rev (v :: acc))) s1
        else if Ascii.eqb c "," then array_items fuel' (v :: acc) (skip_ws s1)
        else Malformed
      | [] => Malformed
      end
    | Malformed => Malformed
    | NoFuel => NoFuel
    end
  end

with object_items (fuel : nat) (acc : list (string * json)) (s : list ascii)
     {struct fuel} : parsed json :=
  match fuel with
  | O => NoFuel
  | S fuel' =>
    match scanstring [] s with
    | None => Malformed
    | Some (key, rest) =>
      match skip_ws rest with
      | colon :: s1 =>
        if Ascii.eqb colon ":" then
          match scan_once fuel' (skip_ws s1) with
          | Parsed v rest' =>
            match skip_ws rest' with
            | c :: s2 =>
              if Ascii.eqb c "}"
              then Parsed (JObj (dict_of_pairs (rev ((key, v) :: acc)))) s2
              else if Ascii.eqb c "," then
                match skip_ws s2 with
                | q :: s3 =>
                  if Ascii.eqb q dquote then object_items fuel' ((key, v) :: acc) s3
                  else Malformed
                | [] => Malformed
                end
              else Malformed
            | [] => Malformed
            end
          | Malformed => Malformed
          | NoFuel => NoFuel
          end
        else Malformed
      | [] => Malformed
      end
    end
  end.

(** Two units of fuel for each character are enough (lemma
    [scan_fuel] below). *)
Definition fuel_for (s : list ascii) : nat := 2 * List.length s + 1.

(** [json.loads(text)]: one value, with white space around it and
    nothing else. *)
Definition loads (t : string) : outcome json :=
  let s := skip_ws (Text.chars t) in
  match scan_once (fuel_for s) s with
  | Parsed v rest =>
    match skip_ws rest with
    | [] => Ok v
    | _ :: _ => Raise JSONDecodeError
    end
  | Malformed => Raise JSONDecodeError
  | NoFuel => Raise JSONDecodeError   (* never reached: [loads_fuel] *)
  end.

End Json.

(* ================================================================= *)
(** ** [parse_custom_json] and [read_one_file] *)

Definition nan_re : Re.re := Re.Seq Re.WordB (Re.Seq (Re.lit "NaN") Re.WordB).
Definition infinity_re : Re.re := Re.Seq Re.WordB (Re.Seq (Re.lit "Infinity") Re.WordB).
Definition minus_infinity_re : Re.re :=
  Re.Seq Re.WordB (Re.Seq (Re.lit "-Infinity") Re.WordB).
Definition inf_re : Re.re :=
  Re.Seq Re.WordB (Re.Seq (Re.Opt (Re.lit "-")) (Re.Seq (Re.lit "Inf") Re.WordB)).

(** The four rewrites of [parse_custom_json], in its order. *)
Definition fix_json_text (json_text : string) : string :=
  let json_text_fixed := json_text in
  let json_text_fixed := Re.sub nan_re "null" json_text_fixed in
  let json_text_fixed := Re.sub infinity_re "null" json_text_fixed in
  let json_text_fixed := Re.sub minus_infinity_re "null" json_text_fixed in
  let json_text_fixed := Re.sub inf_re "null" json_text_fixed in
  json_text_fixed.

Definition parse_custom_json (json_text : string) : outcome json :=
  Json.loads (fix_json_text json_text).

(* ================================================================= *)
(** ** The file system the loader reads *)

(** What exists at a path.  A directory is [Dir] when the process may
    list it and [Closed] when it may not (no read permission); both
    may be searched, so that the status of an entry can always be
    asked for by name. *)
#[warnings="-register-all"]
Inductive node : Type :=
| File (content : option string)   (* [None]: [open] or [read] fails *)
| Dir (entries : list (string * node))
| Closed (entries : list (string * node))
| Other.                            (* exists, neither file nor directory *)

Definition is_dir (n : node) : bool :=
  match n with Dir _ | Closed _ => true | _ => false end.

Fixpoint lookup (name : string) (entries : list (string * node)) : option node :=
  match entries with
  | [] => None
  | (name', n) :: rest => if String.eqb name name' then Some n else lookup name rest
  end.

(** [parent / name], when it exists. *)
Definition child (name : string) (parent : node) : option node :=
  match parent with
  | Dir entries | Closed entries => lookup name entries
  | _ => None
  end.

(** [path.iterdir()] on a path that exists. *)
Definition iterdir (n : node) : outcome (list (string * node)) :=
  match n with
  | Dir entries => Ok entries
  | Closed _ => Raise PermissionError
  | _ => Raise NotADirectoryError
  end.

(** [path.glob(prefix + "*")] and [path.glob("*" + suffix)] on the
    listing of a directory, in the order of the listing.  On a
    directory that cannot be listed [glob] finds nothing: it passes
    over the [PermissionError] of the scan. *)
Definition glob_prefix (prefix : string) (entries : list (string * node))
  : list (string * node) :=
  filter (fun e => Text.startswith prefix (fst e)) entries.

Definition glob_suffix (suffix : string) (entries : list (string * node))
  : list (string * node) :=
  filter (fun e => Text.endswith suffix (fst e)) entries.

(** What [open(path).read()] returns, if anything. *)
Definition file_text (n : node) : option string :=
  match n with
  | File content => content
  | _ => None
  end.

Definition read_one_file (file_path : node) : json :=
  match file_text file_path with
  | None => JObj []
  | Some content =>
    match parse_custom_json content with
    | Ok data => data
    | Raise _ => JObj []
    end
  end.

(* ================================================================= *)
(** ** Python operations on decoded values *)

(** [len(v)] *)
Definition py_len (v : json) : outcome nat :=
  match v with
  | JArr l => Ok (List.length l)
  | JStr s => Ok (String.length s)
  | JObj d => Ok (List.length d)
  | _ => Raise TypeError
  end.

(** [bool(v)] *)
Definition truthy (v : json) : bool :=
  match v with
  | JNull => false
  | JBool b => b
  | JNum x => negb (PrimFloat.eqb x Num.zero)
  | JStr s => negb (String.eqb s EmptyString)
  | JArr l => negb (Nat.eqb (List.length l) 0)
  | JObj d => negb (Nat.eqb (List.length d) 0)
  end.

Definition is_str (k : string) (v : json) : bool :=
  match v with
  | JStr s => String.eqb s k
  | _ => false
  end.

(** [k in v] for a string [k] *)
Definition py_in (k : string) (v : json) : outcome bool :=
  match v with
  | JObj d => Ok (dict_mem k d)
  | JArr l => Ok (existsb (is_str k) l)
  | JStr s => Ok (Text.contains k s)
  | _ => Raise TypeError
  end.

(** [v.get(k, default)] *)
Definition py_get (v : json) (k : string) (default : json) : outcome json :=
  match v with
  | JObj d => Ok (dict_get_default k default d)
  | _ => Raise AttributeError
  end.

(** [v[-1]] *)
Definition py_last (v : json) : outcome json :=
  match v with
  | JArr l =>
    match rev l with
    | x :: _ => Ok x
    | [] => Raise IndexError
    end
  | JStr s =>
    match rev (Text.chars s) with
    | c :: _ => Ok (JStr (String c EmptyString))
    | [] => Raise IndexError
    end
  | JObj _ => Raise KeyError
  | _ => Raise TypeError
  end.

(** A number, or a [bool] read as [1] or [0]. *)
Definition as_number (v : json) : option Num.float :=
  match v with
  | JNum x => Some x
  | JBool b => Some (if b then Num.of_Z 1 else Num.zero)
  | _ => None
  end.

(** [a + b] *)
Definition py_add (a b : json) : outcome json :=
  match as_number a, as_number b with
  | Some x, Some y => Ok (JNum (Num.add x y))
  | _, _ =>
    match a, b with
    | JStr s, JStr t => Ok (JStr (s ++ t)%string)
    | JArr l, JArr m => Ok (JArr (l ++ m))
    | _, _ => Raise TypeError
    end
  end.

(** [acc + x1 + ... + xn] *)
Fixpoint add_all (acc : json) (l : list json) : outcome json :=
  match l with
  | [] => Ok acc
  | x :: l' => acc' <- py_add acc x ;; add_all acc' l'
  end.

(** [sum(v)]: the items of a list, the characters of a string, the
    keys of a dict, added to [0] from the left. *)
Definition py_sum (v : json) : outcome json :=
  match v with
  | JArr l => add_all (JNum Num.zero) l
  | JStr s => add_all (JNum Num.zero) (map (fun c => JStr (String c EmptyString)) (Text.chars s))
  | JObj d => add_all (JNum Num.zero) (map (fun kv => JStr (fst kv)) d)
  | _ => Raise TypeError
  end.

(* ================================================================= *)
(** ** Tables (pandas [DataFrame]) *)

Record table : Type := {
  nrows : nat;
  columns : list (string * list json)
}.

(** [pd.DataFrame()] *)
Definition empty_table : table := {| nrows := 0; columns := [] |}.

(** [df.empty] *)
Definition table_empty (t : table) : bool :=
  Nat.eqb (nrows t) 0 || Nat.eqb (List.length (columns t)) 0.

Fixpoint assoc (name : string) (cols : list (string * list json)) : option (list json) :=
  match cols with
  | [] => None
  | (name', c) :: rest => if String.eqb name name' then Some c else assoc name rest
  end.

(** [df[name]], when [name in df.columns] *)
Definition column (name : string) (t : table) : option (list json) :=
  assoc name (columns t).

Fixpoint put (name : string) (c : list json) (cols : list (string * list json))
  : list (string * list json) :=
  match cols with
  | [] => [(name, c)]
  | (name', c') :: rest =>
    if String.eqb name name' then (name, c) :: rest else (name', c') :: put name c rest
  end.

(** [df[name] = c] for a list [c] of [nrows df] cells *)
Definition set_column (name : string) (c : list json) (t : table) : table :=
  {| nrows := nrows t; columns := put name c (columns t) |}.

(** The cells that [df[name] = v] stores in a table of [n] rows when
    [len(v) == n]: the items of a list; a string is a scalar and fills
    the column; a dict is aligned on the row labels, which its string
    keys never equal (pandas 2). *)
Definition cells_of (n : nat) (v : json) : list json :=
  match v with
  | JArr l => l
  | JObj _ => repeat np_nan n
  | _ => repeat v n
  end.

(** [pd.isna] of a cell *)
Definition isna (c : json) : bool :=
  match c with
  | JNull => true
  | JNum x => Num.is_nan x
  | _ => false
  end.

(** [series.fillna(0)] *)
Definition fillna0 (c : list json) : list json :=
  map (fun x => if isna x then JNum Num.zero else x) c.

(** [a + b] for two columns of one table *)
Fixpoint series_add (a b : list json) : outcome (list json) :=
  match a, b with
  | x :: a', y :: b' =>
    z <- py_add x y ;;
    rest <- series_add a' b' ;;
    Ok (z :: rest)
  | _, _ => Ok []
  end.

(** [series.cumsum()]: the running sum from the left; a missing cell
    stays missing and is skipped. *)
Fixpoint cumsum_from (acc : option json) (c : list json) : outcome (list json) :=
  match c with
  | [] => Ok []
  | x :: c' =>
    if isna x then
      rest <- cumsum_from acc c' ;;
      Ok (x :: rest)
    else
      s <- match acc with
           | None => Ok x
           | Some a => py_add a x
           end ;;
      rest <- cumsum_from (Some s) c' ;;
      Ok (s :: rest)
  end.

Definition cumsum (c : list json) : outcome (list json) := cumsum_from None c.

(** [series.sum()]: missing cells are skipped, an empty sum is [0].
    The cells are added from the left; numpy may group the additions
    differently, which gives the same float whenever the partial sums
    are exact, as for the cut counts summed here. *)
Definition series_sum (c : list json) : outcome json :=
  match filter (fun x => negb (isna x)) c with
  | [] => Ok (JNum Num.zero)
  | x :: rest => add_all x rest
  end.

(* ================================================================= *)
(** ** [process_iteration_data] *)

Definition core_arrays : list string :=
  [ "lblp_lower"; "ub_lp"; "did_compress";
    "lp_time_project"; "lp_time_LB"; "time_compress" ].

Definition stages : list (string * string) :=
  [ ("prob_sizes_at_start", "start");
    ("prob_sizes_after_compress", "compress");
    ("prob_sizes_after_split", "split") ].

Definition cut_columns : list (string * string) :=
  [ ("cut_tot_cut_value", "tot_cut_value");
    ("cut_TOT_gen_cut", "TOT_gen_cut");
    ("cut_tot_time_opt", "tot_time_opt");
    ("cut_max_time_opt", "max_time_opt") ].

(** [[np.nan] * iterations] *)
Definition nans (iterations : nat) : list json := repeat np_nan iterations.

(** [pd.DataFrame({'iteration': range(1, iterations + 1)})] *)
Definition new_table (iterations : nat) : table :=
  {| nrows := iterations;
     columns := [("iteration", map (fun i => JNum (Num.of_nat i)) (seq 1 iterations))] |}.

(** One round of the loop over [core_arrays]. *)
Definition core_column (data : dict) (iterations : nat) (array_name : string)
  : outcome (list json) :=
  match dict_get array_name data with
  | Some v =>
    n <- py_len v ;;
    if Nat.eqb n iterations then Ok (cells_of iterations v) else Ok (nans iterations)
  | None => Ok (nans iterations)
  end.

Fixpoint add_core_columns (data : dict) (iterations : nat) (names : list string)
         (results_df : table) : outcome table :=
  match names with
  | [] => Ok results_df
  | array_name :: rest =>
    c <- core_column data iterations array_name ;;
    add_core_columns data iterations rest (set_column array_name c results_df)
  end.

(** [item.get(key, np.nan) if isinstance(item, dict) else np.nan] *)
Definition item_get (key : string) (item : json) : json :=
  match item with
  | JObj d => dict_get_default key np_nan d
  | _ => np_nan
  end.

(** The column read from a field that holds one record per
    iteration. *)
Definition record_column (data : dict) (iterations : nat) (field key : string)
  : list json :=
  match dict_get field data with
  | Some (JArr items) =>
    if Nat.eqb (List.length items) iterations
    then map (item_get key) items
    else nans iterations            (* wrong length *)
  | Some _ => nans iterations       (* not a list *)
  | None => nans iterations         (* field missing *)
  end.

Definition add_stage_columns (data : dict) (iterations : nat) (results_df : table)
  : table :=
  fold_left
    (fun df stage =>
       let '(stage_name, suffix) := stage in
       let df := set_column (suffix ++ "_timeGraph")
                   (record_column data iterations stage_name "timeGraph") df in
       set_column (suffix ++ "_ngGraph")
         (record_column data iterations stage_name "ngGraph") df)
    stages results_df.

Definition add_cut_columns (data : dict) (iterations : nat) (results_df : table)
  : table :=
  fold_left
    (fun df col =>
       set_column (fst col)
         (record_column data iterations "cuttingPlaneBendInfo" (snd col)) df)
    cut_columns results_df.

Definition add_cumulative_time (iterations : nat) (results_df : table) : outcome table :=
  match column "lp_time_LB" results_df, column "lp_time_project" results_df with
  | Some lb, Some project =>
    total <- series_add (fillna0 lb) (fillna0 project) ;;
    c <- cumsum total ;;
    Ok (set_column "cumulative_time" c results_df)
  | _, _ => Ok (set_column "cumulative_time" (nans iterations) results_df)
  end.

(** The function on a dict. *)
Definition iteration_table (data : dict) : outcome table :=
  if negb (dict_mem "lblp_lower" data) then Ok empty_table
  else
    iterations <- py_len (dict_get_default "lblp_lower" (JArr []) data) ;;
    if Nat.eqb iterations 0 then Ok empty_table
    else
      let results_df := new_table iterations in
      results_df <- add_core_columns data iterations core_arrays results_df ;;
      let results_df := add_stage_columns data iterations results_df in
      let results_df := add_cut_columns data iterations results_df in
      add_cumulative_time iterations results_df.

(** On a document that is no dict the function returns the empty
    table when ['lblp_lower' not in data] holds, and fails at
    [data.get] or at the membership test otherwise. *)
Definition process_iteration_data (data : json) : outcome table :=
  match data with
  | JObj d => iteration_table d
  | _ =>
    present <- py_in "lblp_lower" data ;;
    if negb present then Ok empty_table
    else
      lower <- py_get data "lblp_lower" (JArr []) ;;
      _ <- py_len lower ;;
      Ok empty_table
  end.

(* ================================================================= *)
(** ** The summary record of a run *)

Record run_record : Type := {
  dataset : string;
  num_cust : nat;
  instance_type : string;
  condition : string;
  instance : string;
  root_lp : json;
  final_lb : json;
  ilp_objective : json;
  ilp_time : json;
  total_lp_time : json;
  iterations : nat;
  total_cuts : json;
  iteration_data : table
}.

(** [data.get('lblp_lower', [np.nan])[-1] if data.get('lblp_lower') else np.nan] *)
Definition final_lb_of (data : json) : outcome json :=
  test <- py_get data "lblp_lower" JNull ;;
  if truthy test then
    lower <- py_get data "lblp_lower" (JArr [np_nan]) ;;
    py_last lower
  else Ok np_nan.

(** [sum([sum(data.get('lp_time_LB', [])), sum(data.get('lp_time_project', []))])] *)
Definition total_lp_time_of (data : json) : outcome json :=
  lb <- py_get data "lp_time_LB" (JArr []) ;;
  lb_sum <- py_sum lb ;;
  project <- py_get data "lp_time_project" (JArr []) ;;
  project_sum <- py_sum project ;;
  py_sum (JArr [lb_sum; project_sum]).

(** [record['total_cuts']]: [0], replaced by the sum of the cut counts
    when the table is not empty and has the column. *)
Definition total_cuts_of (iteration_data : table) : outcome json :=
  if negb (table_empty iteration_data) then
    match column "cut_TOT_gen_cut" iteration_data with
    | Some c => series_sum (fillna0 c)
    | None => Ok (JNum Num.zero)
    end
  else Ok (JNum Num.zero).

(** The body of the loop over the files of a condition, from the call
    of [process_iteration_data] to the record that is appended. *)
Definition make_record (dataset condition file_name : string) (data : json)
  : outcome run_record :=
  iteration_data <- process_iteration_data data ;;
  let num_cust := num_cust_of dataset in
  let instance_type := instance_type_of dataset in
  let instance := extract_instance_name file_name in
  root_lp <- py_get data "ROOT_LP_PRIOR_ADDING_CUTS" np_nan ;;
  final_lb <- final_lb_of data ;;
  ilp_objective <- py_get data "OUR_ilp_objective" np_nan ;;
  ilp_time <- py_get data "OUR_ilp_time" np_nan ;;
  total_lp_time <- total_lp_time_of data ;;
  lower <- py_get data "lblp_lower" (JArr []) ;;
  iterations <- py_len lower ;;
  total_cuts <- total_cuts_of iteration_data ;;
  Ok {| dataset := dataset;
        num_cust := num_cust;
        instance_type := instance_type;
        condition := condition;
        instance := instance;
        root_lp := root_lp;
        final_lb := final_lb;
        ilp_objective := ilp_objective;
        ilp_time := ilp_time;
        total_lp_time := total_lp_time;
        iterations := iterations;
        total_cuts := total_cuts;
        iteration_data := iteration_data |}.

(* ================================================================= *)
(** ** [load_ablation_data] *)

(** The file a [jy_*] directory is read from: the first of its
    [*.json] entries followed by its [*.txt] entries. *)
Definition pick_file (entries : list (string * node)) : option (string * node) :=
  let json_files := glob_suffix ".json" entries ++ glob_suffix ".txt" entries in
  hd_error json_files.

(** The document read for one [jy_*] entry; [None] where the loop
    goes on to the next entry without reading. *)
Definition entry_data (file_path : node) : option json :=
  match file_path with
  | File _ => Some (read_one_file file_path)
  | Dir entries =>
    match pick_file entries with
    | Some (_, f) => Some (read_one_file f)
    | None => None
    end
  | Closed _ => None                (* both globs find nothing *)
  | Other => None
  end.

(** One round of the loop over the files: the [try] block with its
    handler.  [None]: nothing is appended. *)
Definition load_entry (dataset condition : string) (entry : string * node)
  : option run_record :=
  let '(file_name, file_path) := entry in
  match entry_data file_path with
  | None => None
  | Some data =>
    if negb (truthy data) then None
    else
      match make_record dataset condition file_name data with
      | Ok record => Some record
      | Raise _ => None             (* except Exception: continue *)
      end
  end.

Definition load_files (dataset condition : string) (files : list (string * node))
           (all_results : list run_record) : list run_record :=
  fold_left
    (fun acc entry =>
       match load_entry dataset condition entry with
       | Some record => acc ++ [record]
       | None => acc
       end)
    files all_results.

Definition load_conditions (dataset : string) (dataset_dir : node)
           (conditions_to_process : list string) (all_results : list run_record)
  : list run_record :=
  fold_left
    (fun acc condition =>
       match child condition dataset_dir with
       | Some (Dir entries) => load_files dataset condition (glob_prefix "jy_" entries) acc
       | _ => acc                   (* the glob finds nothing *)
       end)
    conditions_to_process all_results.

Definition load_dataset (base_path : node) (dataset : string)
           (all_results : list run_record) : outcome (list run_record) :=
  match child dataset base_path with
  | None => Ok all_results
  | Some dataset_dir =>
    entries <- iterdir dataset_dir ;;
    let available_conditions :=
      map fst (filter (fun e => is_dir (snd e)) entries) in
    let conditions_to_process :=
      filter (fun c => existsb (String.eqb c) available_conditions) base_conditions in
    Ok (load_conditions dataset dataset_dir conditions_to_process all_results)
  end.

Fixpoint load_datasets (base_path : node) (names : list string)
         (all_results : list run_record) : outcome (list run_record) :=
  match names with
  | [] => Ok all_results
  | dataset :: rest =>
    acc <- load_dataset base_path dataset all_results ;;
    load_datasets base_path rest acc
  end.

(** The catalog: the records of the runs, in the order they were
    appended.  [base_dir] is the node at the base path, if it exists. *)
Definition load_ablation_data (base_dir : option node) : outcome (list run_record) :=
  match base_dir with
  | None => Ok []
  | Some base_path => load_datasets base_path datasets []
  end.

(* ================================================================= *)
(** ** Queries on the catalog

    The catalog is the list of the records the loader appended.  The
    empty catalog is [pd.DataFrame()], a frame without columns, on
    which [df['num_cust']] and [df['instance']] raise [KeyError]. *)

(** [sorted] on strings: the ascending arrangement, built by
    insertion. *)
Fixpoint insert_sorted (x : string) (l : list string) : list string :=
  match l with
  | [] => [x]
  | y :: l' => if String.leb x y then x :: l else y :: insert_sorted x l'
  end.

Definition sorted (l : list string) : list string :=
  fold_right insert_sorted [] l.

(** [series.unique()]: the values in the order of their first
    appearance.  [seen] holds the values met so far. *)
Fixpoint unique_from (seen : list string) (l : list string) : list string :=
  match l with
  | [] => []
  | x :: l' =>
    if existsb (String.eqb x) seen then unique_from seen l'
    else x :: unique_from (x :: seen) l'
  end.

Definition unique (l : list string) : list string := unique_from [] l.

Definition get_available_instances (df : list run_record) (num_cust_ : nat)
           (condition_ : string) : outcome (list string) :=
  match df with
  | [] => Raise KeyError
  | _ :: _ =>
    let filtered :=
      filter (fun r => Nat.eqb (num_cust r) num_cust_
                       && String.eqb (condition r) condition_) df in
    Ok (sorted (unique (map instance filtered)))
  end.

(** [(df['instance'] == instance) & (df['condition'] == condition)] *)
Definition selects (instance_ condition_ : string) (r : run_record) : bool :=
  String.eqb (instance r) instance_ && String.eqb (condition r) condition_.

Definition get_iteration_data (df : list run_record) (instance_ condition_ : string)
  : outcome (option table) :=
  match df with
  | [] => Raise KeyError
  | _ :: _ =>
    match filter (selects instance_ condition_) df with
    | [] => Ok None
    | row :: _ =>
      let iteration_data := iteration_data row in
      if negb (table_empty iteration_data) then Ok (Some iteration_data)
      else Ok None
    end
  end.

Definition is_bool (c : json) : bool :=
  match c with
  | JBool _ => true
  | _ => false
  end.

(** [bounds = col.dropna()] and, when [bounds] is not empty,
    [bounds.iloc[-1] - bounds.iloc[0]].  A column of booleans only is
    held as numpy booleans, which cannot be subtracted; in any other
    column the two cells are subtracted as Python objects. *)
Definition lb_improvement (col : list json) : outcome (option json) :=
  let bounds := filter (fun x => negb (isna x)) col in
  match bounds with
  | [] => Ok None
  | first :: _ =>
    if forallb is_bool col then Raise TypeError
    else
      match as_number (last bounds first), as_number first with
      | Some x, Some y => Ok (Some (JNum (PrimFloat.sub x y)))
      | _, _ => Raise TypeError
      end
  end.

Definition get_summary_stats (df : list run_record) (instance_ condition_ : string)
  : outcome dict :=
  match df with
  | [] => Raise KeyError
  | _ :: _ =>
    match filter (selects instance_ condition_) df with
    | [] => Ok []
    | row :: _ =>
      let iteration_data := iteration_data row in
      let stats :=
        [ ("Root LP", root_lp row);
          ("Final LB", final_lb row);
          ("ILP Objective", ilp_objective row);
          ("ILP Time", ilp_time row);
          ("Total LP Time", total_lp_time row);
          ("Iterations", JNum (Num.of_nat (iterations row)));
          ("Total Cuts", total_cuts row) ] in
      if negb (table_empty iteration_data) then
        match column "lblp_lower" iteration_data with
        | Some col =>
          improvement <- lb_improvement col ;;
          match improvement with
          | Some v => Ok (dict_set "LB Improvement" v stats)
          | None => Ok stats
          end
        | None => Ok stats
        end
      else Ok stats
    end
  end.

(* ================================================================= *)
(** ** Notions of the specification *)

(** Documents in the examples are written with an apostrophe where the
    file has a double quote. *)
Definition quoted (s : string) : string :=
  Text.text (map (fun c => if Ascii.eqb c "'" then Json.dquote else c) (Text.chars s)).

(** "The last non-missing entry" of a sequence, if it has one. *)
Definition last_non_missing (l : list json) : option json :=
  hd_error (rev (filter (fun x => negb (isna x)) l)).

(** A number or a missing value: what an LP time array holds. *)
Definition number_or_null (c : json) : bool :=
  match c with
  | JNum _ | JNull => true
  | _ => false
  end.

Definition is_array (v : json) : bool :=
  match v with
  | JArr _ => true
  | _ => false
  end.

Definition is_number_array (v : json) : bool :=
  match v with
  | JArr l => forallb number_or_null l
  | _ => false
  end.

(** The shape the data model gives a run document: each core array,
    when present, is a sequence, and the two LP time arrays hold
    numbers or missing values. *)
Definition well_shaped (data : dict) : bool :=
  forallb
    (fun name =>
       match dict_get name data with
       | Some v => is_array v
       | None => true
       end) core_arrays
  && forallb
       (fun name =>
          match dict_get name data with
          | Some v => is_number_array v
          | None => true
          end) ["lp_time_LB"; "lp_time_project"].

(** The file an entry of a condition directory is read from. *)
Definition read_from (file_path : node) : option node :=
  match file_path with
  | File _ => Some file_path
  | Dir entries => option_map snd (pick_file entries)
  | Closed _ => None
  | Other => None
  end.

(** The three ways a run fails: its file cannot be read, the text
    does not parse, the extraction raises. *)
Inductive run_fails (dataset condition file_name : string) (file_path : node) : Prop :=
| fails_unreadable (f : node) :
    read_from file_path = Some f ->
    file_text f = None ->
    run_fails dataset condition file_name file_path
| fails_to_parse (f : node) (content : string) (e : exn) :
    read_from file_path = Some f ->
    file_text f = Some content ->
    parse_custom_json content = Raise e ->
    run_fails dataset condition file_name file_path
| fails_in_extraction (f : node) (content : string) (data : json) (e : exn) :
    read_from file_path = Some f ->
    file_text f = Some content ->
    parse_custom_json content = Ok data ->
    make_record dataset condition file_name data = Raise e ->
    run_fails dataset condition file_name file_path.

(** The record of a run without iteration data: no iterations, no
    final bound, no cuts, the empty table. *)
Definition bare_record (dataset condition file_name : string) (data : dict)
           (total_lp_time : json) : run_record :=
  {| dataset := dataset;
     num_cust := num_cust_of dataset;
     instance_type := instance_type_of dataset;
     condition := condition;
     instance := extract_instance_name file_name;
     root_lp := dict_get_default "ROOT_LP_PRIOR_ADDING_CUTS" np_nan data;
     final_lb := np_nan;
     ilp_objective := dict_get_default "OUR_ilp_objective" np_nan data;
     ilp_time := dict_get_default "OUR_ilp_time" np_nan data;
     total_lp_time := total_lp_time;
     iterations := 0;
     total_cuts := JNum Num.zero;
     iteration_data := empty_table |}.

(** What a core column is to hold in a table of [n] rows: the source
    array when it is present with exactly [n] entries, missing values
    otherwise. *)
Definition source_or_missing (data : dict) (n : nat) (name : string) : list json :=
  match dict_get name data with
  | Some (JArr src) => if Nat.eqb (List.length src) n then src else nans n
  | _ => nans n
  end.

Definition is_num (c : json) : bool :=
  match c with
  | JNum _ => true
  | _ => false
  end.

(** A cell with a missing value read as zero. *)
Definition or_zero (c : json) : Num.float :=
  match c with
  | JNum x => if Num.is_nan x then Num.zero else x
  | _ => Num.zero
  end.

(** The time of each step: the two LP times, missing read as zero. *)
Fixpoint step_times (lb project : list json) : list Num.float :=
  match lb, project with
  | x :: lb', y :: project' => Num.add (or_zero x) (or_zero y) :: step_times lb' project'
  | _, _ => []
  end.

(** The running sums of a sequence that follows a sum [acc]. *)
Fixpoint running_sum (acc : Num.float) (l : list Num.float) : list Num.float :=
  match l with
  | [] => []
  | x :: l' => Num.add acc x :: running_sum (Num.add acc x) l'
  end.

(** The prefix sums [x1; x1 + x2; ...]. *)
Definition prefix_sums (l : list Num.float) : list Num.float :=
  match l with
  | [] => []
  | x :: l' => x :: running_sum x l'
  end.

(** *** Example documents and corpora *)

(** An LP time array with a [NaN] entry. *)
Definition doc_nan_time : string :=
  quoted "{'lblp_lower': [1.0], 'lp_time_LB': [NaN], 'lp_time_project': [0.5]}".

(** A core field that is a number, not a sequence. *)
Definition doc_scalar_ub : dict :=
  [("lblp_lower", JArr [JNum 1%float]); ("ub_lp", JNum 5%float)].

(** Two iterations, [lp_time_project] absent. *)
Definition doc_no_project : dict :=
  [("lblp_lower", JArr [JNum 1%float; JNum 2%float]);
   ("lp_time_LB", JArr [JNum 1%float; JNum 2%float])].

(** The document of the specification's example for [cumulative_time]. *)
Definition doc_times : dict :=
  [("lblp_lower", JArr [JNum 1%float; JNum 2%float]);
   ("lp_time_LB", JArr [JNum 1%float; JNum 2%float]);
   ("lp_time_project", JArr [JNum 0.5%float; JNull])].

(** [lblp_lower] of length 3, [ub_lp] of length 2. *)
Definition doc_short_ub : dict :=
  [("lblp_lower", JArr [JNum 10%float; JNum 12%float; JNum 15%float]);
   ("ub_lp", JArr [JNum 20%float; JNum 18%float]);
   ("lp_time_LB", JArr [JNum 1%float; JNull; JNum 2%float])].



(** A run without iteration data. *)
Definition doc_no_iterations : string := quoted "{'OUR_ilp_time': 3}".

(** A well-formed run. *)
Definition doc_good : string :=
  quoted "{'lblp_lower': [10.0, 12.0, 15.0], 'lp_time_LB': [1.0, 2.0, 3.0], 'lp_time_project': [0.5, 0.5, 0.5], 'OUR_ilp_time': 3}".

(** A base directory with one dataset, one condition and the given
    entries below it. *)
Definition corpus (dataset condition : string) (files : list (string * node)) : node :=
  Dir [(dataset, Dir [(condition, Dir files)])].

(** The record the loader makes for [doc_good] read from
    [RC1_numCust_25/normal/jy_rc101.txt]. *)
Definition record_good : run_record :=
  Eval vm_compute in
    match parse_custom_json doc_good with
    | Ok data =>
      match make_record "RC1_numCust_25" "normal" "jy_rc101.txt" data with
      | Ok r => r
      | Raise _ => bare_record "RC1_numCust_25" "normal" "jy_rc101.txt" [] JNull
      end
    | Raise _ => bare_record "RC1_numCust_25" "normal" "jy_rc101.txt" [] JNull
    end.

(** *** Notions for the catalog queries *)

(** "The first non-missing entry" of a sequence, if it has one. *)
Definition first_non_missing (l : list json) : option json :=
  hd_error (filter (fun x => negb (isna x)) l).

(** Strictly ascending order of strings. *)
Definition ascending (l : list string) : Prop :=
  Sorted (fun a b => String.ltb a b = true) l.

(** What a query shows of a record's table: the table, unless it is
    empty. *)
Definition shown_table (r : run_record) : option table :=
  if table_empty (iteration_data r) then None else Some (iteration_data r).

(** A second run of instance [rc101] under condition [normal], with 50
    customers and no iteration data. *)
Definition record_other : run_record :=
  bare_record "RC1_numCust_50" "normal" "jy_rc101.txt" [] (JNum 0%float).

(** The improvement of the lower bound: the last non-missing entry
    minus the first, when the entries are numbers. *)
Definition bound_improvement (col : list json) : option json :=
  match first_non_missing col, last_non_missing col with
  | Some (JNum a), Some (JNum b) => Some (JNum (PrimFloat.sub b a))
  | _, _ => None
  end.

(** *** The normalizer as the specification words it

    A rule strips the prefix or the suffix it tests for, and nothing
    else; the rule for [_better] also removes every [jy_]. *)

Definition drop_prefix (prefix s : string) : string :=
  if Text.startswith prefix s
  then String.substring (String.length prefix) (String.length s - String.length prefix) s
  else s.

Definition drop_suffix (suffix s : string) : string :=
  if Text.endswith suffix s
  then String.substring 0 (String.length s - String.length suffix) s
  else s.

Definition normalize_as_stated (filename : string) : string :=
  let base_name :=
    if Text.endswith ".txt" filename then drop_suffix ".txt" filename
    else drop_suffix ".json" filename in
  if Text.startswith "BACK_jy_" base_name then
    (drop_prefix "BACK_jy_" base_name ++ "_BACK")%string
  else if Text.endswith "_better" base_name then
    (drop_suffix "_better" (Text.replace "jy_" EmptyString base_name) ++ "_better")%string
  else if Text.startswith "jy_" base_name then
    drop_prefix "jy_" base_name
  else base_name.

(** The seven summary values of a record, under the names the
    statistics give them. *)
Definition summary_values (r : run_record) : dict :=
  [ ("Root LP", root_lp r);
    ("Final LB", final_lb r);
    ("ILP Objective", ilp_objective r);
    ("ILP Time", ilp_time r);
    ("Total LP Time", total_lp_time r);
    ("Iterations", JNum (Num.of_nat (iterations r)));
    ("Total Cuts", total_cuts r) ].

(** *** Notions for the shape of the iteration table *)

(** The columns of a table with rows, in the order they are added. *)
Definition iteration_columns : list string :=
  [ "iteration";
    "lblp_lower"; "ub_lp"; "did_compress"; "lp_time_project"; "lp_time_LB"; "time_compress";
    "start_timeGraph"; "start_ngGraph"; "compress_timeGraph"; "compress_ngGraph";
    "split_timeGraph"; "split_ngGraph";
    "cut_tot_cut_value"; "cut_TOT_gen_cut"; "cut_tot_time_opt"; "cut_max_time_opt";
    "cumulative_time" ].

(** Every column has one cell for each row. *)
Definition rectangular (t : table) : Prop :=
  Forall (fun nc => List.length (snd nc) = nrows t) (columns t).

(** The columns read from the fields that hold one record for each
    iteration: the column, the field, the key inside the records. *)
Definition derived_columns : list (string * string * string) :=
  [ ("start_timeGraph", "prob_sizes_at_start", "timeGraph");
    ("start_ngGraph", "prob_sizes_at_start", "ngGraph");
    ("compress_timeGraph", "prob_sizes_after_compress", "timeGraph");
    ("compress_ngGraph", "prob_sizes_after_compress", "ngGraph");
    ("split_timeGraph", "prob_sizes_after_split", "timeGraph");
    ("split_ngGraph", "prob_sizes_after_split", "ngGraph");
    ("cut_tot_cut_value", "cuttingPlaneBendInfo", "tot_cut_value");
    ("cut_TOT_gen_cut", "cuttingPlaneBendInfo", "TOT_gen_cut");
    ("cut_tot_time_opt", "cuttingPlaneBendInfo", "tot_time_opt");
    ("cut_max_time_opt", "cuttingPlaneBendInfo", "max_time_opt") ].

(** The name of a column joins the names that are there: a new name
    goes to the end. *)
Definition add_name (names : list string) (name : string) : list string :=
  if existsb (String.eqb name) names then names else names ++ [name].

(** A document with rows and with a sub-record that lacks a key and
    an entry that is no record. *)
Definition doc_stages : dict :=
  [("lblp_lower", JArr [JNum 1%float; JNum 2%float]);
   ("prob_sizes_at_start",
    JArr [JObj [("timeGraph", JNum 5%float)]; JNum 3%float]);
   ("cuttingPlaneBendInfo", JArr [JObj [("TOT_gen_cut", JNum 4%float)]])].

(** The tables of [doc_times] and [doc_stages]. *)
Definition table_times : table :=
  Eval vm_compute in
    match process_iteration_data (JObj doc_times) with
    | Ok t => t
    | Raise _ => empty_table
    end.

Definition table_stages : table :=
  Eval vm_compute in
    match process_iteration_data (JObj doc_stages) with
    | Ok t => t
    | Raise _ => empty_table
    end.

(** *** Notions for the catalog as a whole *)

(** The records of the runs of a listing, one after the other, runs
    that fail or are passed over giving none. *)
Definition records_of_files (dataset_ condition_ : string)
           (files : list (string * node)) : list run_record :=
  flat_map (fun entry =>
              match load_entry dataset_ condition_ entry with
              | Some record => [record]
              | None => []
              end) files.

(** The recognised conditions that are directories of a dataset
    directory, in the order of the fixed list. *)
Definition conditions_of (entries : list (string * node)) : list string :=
  filter (fun c => existsb (String.eqb c) (map fst (filter (fun e => is_dir (snd e)) entries)))
         base_conditions.

(** The records of a dataset: condition by condition, the runs of its
    [jy_*] entries. *)
Definition records_of_dataset (base_path : node) (dataset_ : string) : list run_record :=
  match child dataset_ base_path with
  | Some (Dir entries) =>
    flat_map (fun c =>
                match lookup c entries with
                | Some (Dir files) => records_of_files dataset_ c (glob_prefix "jy_" files)
                | _ => []
                end) (conditions_of entries)
  | _ => []
  end.

(** What every record of a loaded catalog satisfies. *)
Definition catalogued (r : run_record) : Prop :=
  In (dataset r) datasets
  /\ In (condition r) base_conditions
  /\ num_cust r = num_cust_of (dataset r)
  /\ In (num_cust r) [25; 50; 100]
  /\ instance_type r = instance_type_of (dataset r)
  /\ iterations r = nrows (iteration_data r)
  /\ exists file_name,
       Text.startswith "jy_" file_name = true
       /\ instance r = extract_instance_name file_name.

(* ================================================================= *)
(** * Properties *)

(* ================================================================= *)
(** ** The decoder never runs out of fuel *)

Lemma skip_ws_length s : List.length (Json.skip_ws s) <= List.length s.
Proof.
  induction s as [|c s IH]; simpl; [lia|].
  destruct (Json.is_ws c); simpl; lia.
Qed.

Lemma scanstring_shorter n :
  forall s acc str rest,
    List.length s <= n ->
    Json.scanstring acc s = Some (str, rest) ->
    List.length rest < List.length s.
Proof.
  induction n as [|n IH]; intros s acc str rest Hn H.
  - destruct s; [discriminate | simpl in Hn; lia].
  - destruct s as [|c s1]; [discriminate|].
    cbn [Json.scanstring] in H. simpl in Hn.
    destruct (Ascii.eqb c Json.dquote).
    { inversion H; subst. simpl. lia. }
    destruct (Ascii.eqb c "\").
    + destruct s1 as [|e s2]; [discriminate|].
      destruct (Ascii.eqb e "u").
      * destruct s2 as [|h1 [|h2 [|h3 [|h4 s3]]]]; try discriminate.
        destruct (Json.hex4 h1 h2 h3 h4) as [cp|]; [|discriminate].
        simpl in Hn.
        assert (Hs3 : forall a, Json.scanstring a s3 = Some (str, rest) ->
                                List.length rest < List.length s3)
          by (intros a Ha; apply (IH s3 a str rest); [lia | exact Ha]).
        destruct s3 as [|b [|u [|l1 [|l2 [|l3 [|l4 s4]]]]]];
          try (apply Hs3 in H; simpl in *; lia).
        destruct (Json.is_high_surrogate cp && Ascii.eqb b "\" && Ascii.eqb u "u");
          [|apply Hs3 in H; simpl in *; lia].
        destruct (Json.hex4 l1 l2 l3 l4) as [cp2|]; [|discriminate].
        destruct (Json.is_low_surrogate cp2); [|apply Hs3 in H; simpl in *; lia].
        apply IH in H; simpl in *; lia.
      * destruct (Json.simple_escape e); [|discriminate].
        apply IH in H; simpl in *; lia.
    + destruct (Text.code c <? 32)%nat; [discriminate|].
      apply IH in H; simpl in *; lia.
Qed.

Lemma take_digits_length s ds rest :
  Json.take_digits s = (ds, rest) ->
  List.length ds + List.length rest = List.length s.
Proof.
  revert ds rest. induction s as [|c s IH]; intros ds rest H; simpl in H.
  - inversion H. reflexivity.
  - destruct (Text.is_digit c).
    + destruct (Json.take_digits s) as [ds' rest'] eqn:E.
      inversion H; subst. simpl. specialize (IH ds' rest eq_refl). lia.
    + inversion H; subst. reflexivity.
Qed.

Lemma integer_part_shorter s ints rest :
  Json.integer_part s = Some (ints, rest) -> List.length rest < List.length s.
Proof.
  unfold Json.integer_part. destruct s as [|c s]; [discriminate|].
  destruct (Ascii.eqb c "0"); [intros H; inversion H; simpl; lia|].
  destruct (Text.is_digit c) eqn:Hd; [|discriminate].
  intros H. inversion H as [H1]. simpl in H1. rewrite Hd in H1.
  destruct (Json.take_digits s) as [ds' rest'] eqn:E.
  inversion H1; subst. apply take_digits_length in E. simpl. lia.
Qed.

Lemma fraction_part_length s frac rest :
  Json.fraction_part s = (frac, rest) -> List.length rest <= List.length s.
Proof.
  unfold Json.fraction_part. destruct s as [|dot s]; [intros H; inversion H; simpl; lia|].
  destruct (Ascii.eqb dot "."); [|intros H; inversion H; simpl; lia].
  destruct (Json.take_digits s) as [ds rest'] eqn:E. apply take_digits_length in E.
  destruct ds; intros H; inversion H; subst; simpl in *; lia.
Qed.

Lemma exponent_part_length s neg ds rest :
  Json.exponent_part s = Some (neg, ds, rest) -> List.length rest <= List.length s.
Proof.
  unfold Json.exponent_part. destruct s as [|e s1]; [discriminate|].
  destruct (Ascii.eqb e "e" || Ascii.eqb e "E"); [|discriminate].
  assert (Hd : forall s2 b, List.length s2 <= List.length s1 ->
                 match Json.take_digits s2 with
                 | ([], _) => None
                 | (ds0, rest0) => Some (b, ds0, rest0)
                 end = Some (neg, ds, rest) ->
                 List.length rest <= List.length (e :: s1)).
  { intros s2 b Hle H. destruct (Json.take_digits s2) as [ds' rest'] eqn:E.
    apply take_digits_length in E. destruct ds'; [discriminate|].
    inversion H; subst. simpl in *. lia. }
  destruct s1 as [|sg s2]; [apply Hd; simpl; lia|].
  destruct (Ascii.eqb sg "-"); [apply Hd; simpl; lia|].
  destruct (Ascii.eqb sg "+"); apply Hd; simpl; lia.
Qed.

Lemma match_number_shorter s x rest :
  Json.match_number s = Some (x, rest) -> List.length rest < List.length s.
Proof.
  unfold Json.match_number.
  set (p := match s with
            | [] => (false, s)
            | c :: s' => if Ascii.eqb c "-" then (true, s') else (false, s)
            end).
  assert (Hp : List.length (snd p) <= List.length s).
  { unfold p. destruct s as [|c s']; simpl; [lia|].
    destruct (Ascii.eqb c "-"); simpl; lia. }
  destruct p as [neg s0]. simpl in Hp.
  destruct (Json.integer_part s0) as [[ints s1]|] eqn:Ei; [|discriminate].
  apply integer_part_shorter in Ei.
  destruct (Json.fraction_part s1) as [frac s2] eqn:Ef.
  apply fraction_part_length in Ef.
  destruct (Json.exponent_part s2) as [[[eneg eds] s3]|] eqn:Ee.
  - apply exponent_part_length in Ee.
    destruct frac; intros H; inversion H; subst; lia.
  - destruct frac; intros H; inversion H; subst; lia.
Qed.

Lemma chars_length w : List.length (Text.chars w) = String.length w.
Proof. induction w as [|c w IH]; simpl; [reflexivity | now rewrite IH]. Qed.

Lemma starts_with_length p s :
  Text.starts_with p s = true -> List.length p <= List.length s.
Proof.
  revert s. induction p as [|a p IH]; intros s H; simpl; [lia|].
  destruct s as [|b s]; [discriminate|]. simpl in H.
  apply andb_prop in H. destruct H as [_ H]. apply IH in H. simpl. lia.
Qed.

Lemma literal_shorter w s :
  0 < String.length w ->
  Json.literal w s = true ->
  List.length (Json.after w s) < List.length s.
Proof.
  unfold Json.literal, Json.after. intros Hw H.
  apply starts_with_length in H. rewrite chars_length in H.
  rewrite length_skipn. lia.
Qed.

Ltac ws_bound :=
  repeat match goal with
         | H : Json.skip_ws ?a = _ |- _ =>
           let L := fresh "Hws" in
           pose proof (skip_ws_length a) as L; rewrite H in L; simpl in L;
           clear H
         end.

Ltac split_scan H :=
  repeat match type of H with
         | context [if ?b then _ else _] => destruct b eqn:?
         | context [match ?x with _ => _ end] => destruct x eqn:?
         end.

(** A value that is read takes at least one character. *)
Lemma scan_shorter fuel :
  (forall s v rest,
      Json.scan_once fuel s = Json.Parsed v rest -> List.length rest < List.length s)
  /\ (forall acc s v rest,
         Json.array_items fuel acc s = Json.Parsed v rest ->
         List.length rest < List.length s)
  /\ (forall acc s v rest,
         Json.object_items fuel acc s = Json.Parsed v rest ->
         List.length rest < List.length s).
Proof.
  induction fuel as [|fuel (IHs & IHa & IHo)]; [repeat split; intros; discriminate|].
  split; [|split].
  - intros s v rest H. cbn [Json.scan_once] in H.
    destruct s as [|c s1]; [discriminate|].
    split_scan H; try discriminate;
      try (inversion H; subst; clear H);
      try match goal with
          | E : Json.scanstring _ _ = Some _ |- _ =>
            apply (scanstring_shorter _ _ _ _ _ (le_n _)) in E
          | E : Json.match_number _ = Some _ |- _ => apply match_number_shorter in E
          | E : Json.literal _ _ = true |- List.length (Json.after _ _) < _ =>
            apply literal_shorter; [simpl; lia | exact E]
          | E : Json.object_items _ _ _ = _ |- _ => apply IHo in E
          | E : Json.array_items _ _ _ = _ |- _ => apply IHa in E
          end;
      ws_bound; simpl in *; lia.
  - intros acc s v rest H. cbn [Json.array_items] in H.
    destruct (Json.scan_once fuel s) as [v0 rest0| |] eqn:E; try discriminate.
    apply IHs in E.
    split_scan H; try discriminate.
    + inversion H; subst. ws_bound. simpl in *. lia.
    + apply IHa in H. pose proof (skip_ws_length l). ws_bound. simpl in *. lia.
  - intros acc s v rest H. cbn [Json.object_items] in H.
    destruct (Json.scanstring [] s) as [[key rest0]|] eqn:Ek; [|discriminate].
    apply (scanstring_shorter _ _ _ _ _ (le_n _)) in Ek.
    destruct (Json.skip_ws rest0) as [|colon s1] eqn:E1; [discriminate|].
    destruct (Ascii.eqb colon ":"); [|discriminate].
    destruct (Json.scan_once fuel (Json.skip_ws s1)) as [v0 rest1| |] eqn:Ev;
      try discriminate.
    apply IHs in Ev. pose proof (skip_ws_length s1).
    destruct (Json.skip_ws rest1) as [|c s2] eqn:E2; [discriminate|].
    destruct (Ascii.eqb c "}").
    + inversion H; subst. ws_bound. simpl in *. lia.
    + destruct (Ascii.eqb c ","); [|discriminate].
      destruct (Json.skip_ws s2) as [|q s3] eqn:E3; [discriminate|].
      destruct (Ascii.eqb q Json.dquote); [|discriminate].
      apply IHo in H. ws_bound. simpl in *. lia.
Qed.

(** Two units of fuel for each character are enough. *)
Lemma scan_fuel fuel :
  (forall s, 2 * List.length s + 1 <= fuel -> Json.scan_once fuel s <> Json.NoFuel)
  /\ (forall acc s, 2 * List.length s + 2 <= fuel ->
                    Json.array_items fuel acc s <> Json.NoFuel)
  /\ (forall acc s, 2 * List.length s + 2 <= fuel ->
                    Json.object_items fuel acc s <> Json.NoFuel).
Proof.
  induction fuel as [|fuel (IHs & IHa & IHo)]; [repeat split; intros; lia|].
  destruct (scan_shorter fuel) as (Ss & Sa & So).
  split; [|split].
  - intros s Hf. cbn [Json.scan_once].
    destruct s as [|c s1]; [discriminate|]. simpl in Hf.
    destruct (Ascii.eqb c Json.dquote).
    { destruct (Json.scanstring [] s1) as [[? ?]|]; discriminate. }
    destruct (Ascii.eqb c "{").
    { destruct (Json.skip_ws s1) as [|c2 s2] eqn:E; [discriminate|].
      destruct (Ascii.eqb c2 "}"); [discriminate|].
      destruct (Ascii.eqb c2 Json.dquote); [|discriminate].
      apply IHo. ws_bound. simpl in *. lia. }
    destruct (Ascii.eqb c "[").
    { destruct (Json.skip_ws s1) as [|c2 s2] eqn:E; [discriminate|].
      destruct (Ascii.eqb c2 "]"); [discriminate|].
      apply IHa. ws_bound. simpl in *. lia. }
    repeat match goal with
           | |- (if ?b then _ else _) <> _ => destruct b; [discriminate|]
           end.
    destruct (Json.match_number (c :: s1)) as [[? ?]|]; [discriminate|].
    repeat match goal with
           | |- (if ?b then _ else _) <> _ => destruct b; [discriminate|]
           end.
    discriminate.
  - intros acc s Hf. cbn [Json.array_items].
    destruct (Json.scan_once fuel s) as [v rest| |] eqn:E.
    + apply Ss in E.
      destruct (Json.skip_ws rest) as [|c s1] eqn:E1; [discriminate|].
      destruct (Ascii.eqb c "]"); [discriminate|].
      destruct (Ascii.eqb c ","); [|discriminate].
      apply IHa. pose proof (skip_ws_length s1). ws_bound. simpl in *. lia.
    + discriminate.
    + exfalso. revert E. apply IHs. lia.
  - intros acc s Hf. cbn [Json.object_items].
    destruct (Json.scanstring [] s) as [[key rest0]|] eqn:Ek; [|discriminate].
    apply (scanstring_shorter _ _ _ _ _ (le_n _)) in Ek.
    destruct (Json.skip_ws rest0) as [|colon s1] eqn:E1; [discriminate|].
    destruct (Ascii.eqb colon ":"); [|discriminate].
    pose proof (skip_ws_length s1). ws_bound.
    destruct (Json.scan_once fuel (Json.skip_ws s1)) as [v rest1| |] eqn:Ev.
    + apply Ss in Ev.
      destruct (Json.skip_ws rest1) as [|c s2] eqn:E2; [discriminate|].
      destruct (Ascii.eqb c "}"); [discriminate|].
      destruct (Ascii.eqb c ","); [|discriminate].
      destruct (Json.skip_ws s2) as [|q s3] eqn:E3; [discriminate|].
      destruct (Ascii.eqb q Json.dquote); [|discriminate].
      apply IHo. ws_bound. simpl in *. lia.
    + discriminate.
    + exfalso. revert Ev. apply IHs. simpl in *. lia.
Qed.

(** [Json.loads] raises only on text that the decoder refuses. *)
Lemma loads_fuel s : Json.scan_once (Json.fuel_for s) s <> Json.NoFuel.
Proof. apply (scan_fuel (Json.fuel_for s)). unfold Json.fuel_for. lia. Qed.

(* ================================================================= *)
(** ** The instance-name normalizer *)

Lemma extract_instance_name_BACK_wins :
  extract_instance_name "BACK_jy_rc108_better.txt" = "rc108_better_BACK".
Proof. reflexivity. Qed.

Lemma extract_instance_name_better_wins :
  extract_instance_name "jy_jy_rc108_better.json" = "rc108_better".
Proof. reflexivity. Qed.

Lemma extract_instance_name_inner_extension :
  extract_instance_name "jy_c101.txt.json" = "c101.txt".
Proof. reflexivity. Qed.

(* ================================================================= *)
(** ** The instance type *)

Lemma make_record_instance_type dataset condition file_name data r :
  make_record dataset condition file_name data = Ok r ->
  instance_type r = instance_type_of dataset /\ num_cust r = num_cust_of dataset.
Proof.
  unfold make_record, bind.
  repeat match goal with
         | |- context [match ?x with Ok _ => _ | Raise _ => _ end] => destruct x; try discriminate
         end.
  intros H; inversion H; subst; simpl; auto.
Qed.

(** C2: on the names of the dataset list the instance type is the
    family code for the [C] and [R] families, and ["Unknown"] for the
    five [RC1_*] and [RC2_*] names: the pattern wants a digit right
    after the first letter.  The record of a run under
    [RC1_numCust_25] carries ["Unknown"]. *)
Theorem instance_type_of_datasets :
  map instance_type_of datasets =
  [ "C1"; "C1"; "C1"; "C2"; "R1"; "R1";
    "Unknown"; "Unknown"; "Unknown"; "Unknown"; "Unknown" ]
  /\ load_ablation_data
       (Some (corpus "RC1_numCust_25" "normal" [("jy_rc101.txt", File (Some doc_good))]))
     = Ok [record_good]
  /\ dataset record_good = "RC1_numCust_25"
  /\ instance_type record_good = "Unknown".
Proof.
  split; [reflexivity|].
  split; [vm_compute; reflexivity|].
  split; reflexivity.
Qed.

(* ================================================================= *)
(** ** The tolerant parser *)

Lemma fix_json_text_standalone :
  fix_json_text (quoted "{'a': NaN, 'b': [Infinity, 1.5, Inf]}")
  = quoted "{'a': null, 'b': [null, 1.5, null]}".
Proof. reflexivity. Qed.

Lemma parse_custom_json_standalone :
  parse_custom_json (quoted "{'a': NaN, 'b': [Infinity, 1.5, Inf]}")
  = Ok (JObj [("a", JNull); ("b", JArr [JNull; JNum 1.5%float; JNull])]).
Proof. vm_compute. reflexivity. Qed.

Lemma parse_custom_json_larger_word :
  fix_json_text (quoted "{'InfoValue': 1, 'NaNs': 2, 'xInfinity': 3}")
  = quoted "{'InfoValue': 1, 'NaNs': 2, 'xInfinity': 3}"
  /\ parse_custom_json (quoted "{'InfoValue': 1, 'NaNs': 2, 'xInfinity': 3}")
     = Ok (JObj [("InfoValue", JNum 1%float); ("NaNs", JNum 2%float);
                 ("xInfinity", JNum 3%float)]).
Proof. split; vm_compute; reflexivity. Qed.

(** The plain decoder reads [-Infinity] by itself. *)
Lemma loads_minus_infinity :
  Json.loads (quoted "{'a': -Infinity}") = Ok (JObj [("a", JNum PrimFloat.neg_infinity)]).
Proof. vm_compute. reflexivity. Qed.

(** C1: on the texts [{"a": -Infinity}] and [{"a": -Inf}] the rewrite
    leaves the minus sign in place and gives [{"a": -null}], which the
    decoder refuses: the call raises instead of returning a document
    with a null at that position. *)
Theorem parse_custom_json_minus_sign :
  fix_json_text (quoted "{'a': -Infinity}") = quoted "{'a': -null}"
  /\ parse_custom_json (quoted "{'a': -Infinity}") = Raise JSONDecodeError
  /\ fix_json_text (quoted "{'a': -Inf}") = quoted "{'a': -null}"
  /\ parse_custom_json (quoted "{'a': -Inf}") = Raise JSONDecodeError.
Proof. repeat split; vm_compute; reflexivity. Qed.

(* ================================================================= *)
(** ** The final lower bound *)

Lemma final_lb_of_array data l :
  dict_get "lblp_lower" data = Some (JArr l) ->
  final_lb_of (JObj data) = Ok (last l np_nan).
Proof.
  intros H. unfold final_lb_of, py_get, bind, dict_get_default. rewrite H.
  destruct l as [|x l] using rev_ind; [reflexivity|].
  simpl truthy. rewrite length_app, Nat.add_comm. simpl.
  rewrite rev_app_distr. simpl. now rewrite last_last.
Qed.

Lemma final_lb_of_absent data :
  dict_get "lblp_lower" data = None ->
  final_lb_of (JObj data) = Ok np_nan.
Proof.
  intros H. unfold final_lb_of, py_get, bind, dict_get_default. now rewrite H.
Qed.

(** C7 (as the code has it): [final_lb] is the last entry of
    [lblp_lower], missing or not, and the missing value when the
    array is empty or absent; it is [15.0] for [[10.0, 12.0, 15.0]]
    and missing for [[]]. *)
Theorem final_lb_last_entry (data : dict) :
  match dict_get "lblp_lower" data with
  | Some (JArr l) => final_lb_of (JObj data) = Ok (last l np_nan)
  | None => final_lb_of (JObj data) = Ok np_nan
  | Some _ => True
  end
  /\ final_lb_of (JObj [("lblp_lower", JArr [JNum 10%float; JNum 12%float; JNum 15%float])])
     = Ok (JNum 15%float)
  /\ final_lb_of (JObj [("lblp_lower", JArr [])]) = Ok np_nan.
Proof.
  split; [|split; reflexivity].
  destruct (dict_get "lblp_lower" data) as [[]|] eqn:H; auto using final_lb_of_array, final_lb_of_absent.
Qed.

(** C7, as stated, fails on [[10.0, null]]: the last non-missing entry
    is [10.0], the field is the [null] that ends the array. *)
Lemma final_lb_not_last_non_missing :
  exists v,
    last_non_missing [JNum 10%float; JNull] = Some v
    /\ final_lb_of (JObj [("lblp_lower", JArr [JNum 10%float; JNull])]) = Ok JNull
    /\ final_lb_of (JObj [("lblp_lower", JArr [JNum 10%float; JNull])]) <> Ok v.
Proof.
  exists (JNum 10%float). split; [reflexivity|]. split; [reflexivity|].
  intros H. vm_compute in H. discriminate H.
Qed.

(* ================================================================= *)
(** ** Extraction and errors *)

Lemma doc_nan_time_parsed :
  parse_custom_json doc_nan_time
  = Ok (JObj [("lblp_lower", JArr [JNum 1%float]);
              ("lp_time_LB", JArr [JNull]);
              ("lp_time_project", JArr [JNum 0.5%float])]).
Proof. vm_compute. reflexivity. Qed.

(** The table of the same run is built without error: its cumulative
    time reads the [null] as zero. *)
Lemma doc_nan_time_table :
  match parse_custom_json doc_nan_time with
  | Ok data =>
    match process_iteration_data data with
    | Ok t => column "cumulative_time" t = Some [JNum 0.5%float]
    | Raise _ => False
    end
  | Raise _ => False
  end.
Proof. vm_compute. reflexivity. Qed.

(** C3: the extraction raises.  For a run whose [lp_time_LB] holds a
    [NaN] (read as [null]), [sum] fails with a [TypeError] when the
    total LP time is computed, and the loader drops the run; for a run
    whose [ub_lp] is a number, [len] fails inside
    [process_iteration_data]. *)
Theorem extraction_raises :
  match parse_custom_json doc_nan_time with
  | Ok data =>
    total_lp_time_of data = Raise TypeError
    /\ make_record "C1_numCust_25" "normal" "jy_c101.txt" data = Raise TypeError
  | Raise _ => False
  end
  /\ load_entry "C1_numCust_25" "normal" ("jy_c101.txt", File (Some doc_nan_time)) = None
  /\ process_iteration_data (JObj doc_scalar_ub) = Raise TypeError.
Proof.
  split; [vm_compute; split; reflexivity|].
  split; vm_compute; reflexivity.
Qed.

(* ================================================================= *)
(** ** Cumulative time *)

Lemma series_add_step_times lb project :
  forallb number_or_null lb = true ->
  forallb number_or_null project = true ->
  series_add (fillna0 lb) (fillna0 project) = Ok (map JNum (step_times lb project)).
Proof.
  revert project. induction lb as [|x lb IH]; intros project Hl Hp; [reflexivity|].
  destruct project as [|y project]; [reflexivity|].
  simpl in Hl, Hp. apply andb_prop in Hl, Hp.
  destruct Hl as [Hx Hl], Hp as [Hy Hp].
  cbn [fillna0 map series_add step_times]. fold (fillna0 lb). fold (fillna0 project).
  rewrite (IH project Hl Hp).
  destruct x; try discriminate; destruct y; try discriminate; simpl;
    repeat match goal with |- context [Num.is_nan ?v] => destruct (Num.is_nan v) end;
    reflexivity.
Qed.

Lemma cumsum_from_running_sum a l :
  forallb (fun x => negb (Num.is_nan x)) l = true ->
  cumsum_from (Some (JNum a)) (map JNum l) = Ok (map JNum (running_sum a l)).
Proof.
  revert a. induction l as [|x l IH]; intros a H; [reflexivity|].
  simpl in H. apply andb_prop in H. destruct H as [Hx Hl].
  cbn [map cumsum_from isna running_sum].
  destruct (Num.is_nan x); [discriminate|].
  cbn [py_add as_number bind]. now rewrite (IH _ Hl).
Qed.

Lemma cumsum_prefix_sums l :
  forallb (fun x => negb (Num.is_nan x)) l = true ->
  cumsum (map JNum l) = Ok (map JNum (prefix_sums l)).
Proof.
  destruct l as [|x l]; [reflexivity|]. intros H.
  simpl in H. apply andb_prop in H. destruct H as [Hx Hl].
  unfold cumsum. cbn [map cumsum_from isna prefix_sums].
  destruct (Num.is_nan x); [discriminate|].
  cbn [bind]. now rewrite (cumsum_from_running_sum _ _ Hl).
Qed.

(** On LP time columns of numbers and missing values,
    [cumulative_time] holds the prefix sums of the step times, a
    missing entry counting as zero (as long as no step time is itself
    undefined, as the sum of two opposite infinities is). *)
Lemma cumulative_time_running_sum n df lb project :
  column "lp_time_LB" df = Some lb ->
  column "lp_time_project" df = Some project ->
  forallb number_or_null lb = true ->
  forallb number_or_null project = true ->
  forallb (fun x => negb (Num.is_nan x)) (step_times lb project) = true ->
  add_cumulative_time n df
  = Ok (set_column "cumulative_time"
          (map JNum (prefix_sums (step_times lb project))) df).
Proof.
  intros Hlb Hpr Hl Hp Hnan. unfold add_cumulative_time.
  rewrite Hlb, Hpr, (series_add_step_times _ _ Hl Hp). cbn [bind].
  now rewrite (cumsum_prefix_sums _ Hnan).
Qed.

Lemma cumulative_time_example :
  match process_iteration_data (JObj doc_times) with
  | Ok t => column "cumulative_time" t = Some [JNum 1.5%float; JNum 3.5%float]
  | Raise _ => False
  end.
Proof. vm_compute. reflexivity. Qed.

(** C5: with [lp_time_project] absent from the document the column
    [cumulative_time] is not missing: the absent array has become a
    column of missing values, which count as zero, and the running sum
    of [lp_time_LB] alone is stored. *)
Theorem cumulative_time_absent_array :
  dict_get "lp_time_project" doc_no_project = None
  /\ match process_iteration_data (JObj doc_no_project) with
     | Ok t =>
       column "lp_time_project" t = Some (nans 2)
       /\ column "cumulative_time" t = Some [JNum 1%float; JNum 3%float]
     | Raise _ => False
     end.
Proof. split; vm_compute; [reflexivity | split; reflexivity]. Qed.

(* ================================================================= *)
(** ** The file read from a [jy_*] directory *)

Lemma hd_error_filter_app {A : Type} (p : A -> bool) (l m : list A) (x : A) :
  In x l -> p x = true ->
  exists y, hd_error (filter p l ++ m) = Some y /\ In y l /\ p y = true.
Proof.
  intros Hin Hp.
  assert (Hf : In x (filter p l)) by (apply filter_In; auto).
  destruct (filter p l) as [|y l'] eqn:E; [contradiction|].
  exists y. split; [reflexivity|].
  apply filter_In. rewrite E. now left.
Qed.

Lemma endswith_txt_not_json (name : string) :
  Text.endswith ".txt" name = true -> Text.endswith ".json" name = false.
Proof.
  unfold Text.endswith. simpl rev.
  destruct (rev (Text.chars name)) as [|c l]; cbn [Text.starts_with]; [discriminate|].
  destruct (Ascii.eqb_spec "t" c) as [<-|]; [reflexivity|discriminate].
Qed.

(** A [.txt] file is read only from a directory without [.json] file. *)
Lemma pick_file_txt entries f :
  pick_file entries = Some f ->
  Text.endswith ".json" (fst f) = false ->
  Text.endswith ".txt" (fst f) = true
  /\ forall e, In e entries -> Text.endswith ".json" (fst e) = false.
Proof.
  unfold pick_file, glob_suffix. intros Hpick Hf.
  destruct (filter (fun e => Text.endswith ".json" (fst e)) entries) as [|y l] eqn:E.
  - simpl in Hpick. split.
    + destruct (filter (fun e => Text.endswith ".txt" (fst e)) entries) as [|z l'] eqn:E';
        [discriminate|].
      inversion Hpick; subst.
      assert (Hin : In f (f :: l')) by now left.
      rewrite <- E' in Hin. now apply filter_In in Hin.
    + intros e Hin. destruct (Text.endswith ".json" (fst e)) eqn:He; [|reflexivity].
      assert (Hf' : In e []) by (rewrite <- E; apply filter_In; auto).
      contradiction.
  - simpl in Hpick. inversion Hpick; subst.
    assert (Hin : In f (f :: l)) by now left.
    rewrite <- E in Hin. apply filter_In in Hin. destruct Hin as [_ Hin].
    simpl in Hin. congruence.
Qed.

(** C10: when a [jy_*] directory holds a [.json] file, the file the
    loader reads from it is a [.json] file and no [.txt] file, in
    whatever order the directory is listed. *)
Theorem pick_file_json_first (entries : list (string * node)) (e : string * node) :
  In e entries ->
  Text.endswith ".json" (fst e) = true ->
  forall listing, Permutation entries listing ->
  exists f,
    pick_file listing = Some f
    /\ In f entries
    /\ Text.endswith ".json" (fst f) = true
    /\ Text.endswith ".txt" (fst f) = false
    /\ entry_data (Dir listing) = Some (read_one_file (snd f)).
Proof.
  intros Hin He listing Hperm.
  assert (Hin' : In e listing) by (eapply Permutation_in; eauto).
  destruct (hd_error_filter_app (fun x => Text.endswith ".json" (fst x)) listing
              (glob_suffix ".txt" listing) e Hin' He) as (f & Hf & Hfin & Hfj).
  exists f. repeat split; auto.
  - eapply Permutation_in; [apply Permutation_sym|]; eauto.
  - destruct (Text.endswith ".txt" (fst f)) eqn:Ht; [|reflexivity].
    apply endswith_txt_not_json in Ht. congruence.
  - unfold entry_data, pick_file, glob_suffix at 1. rewrite Hf. now destruct f.
Qed.

Lemma pick_file_json_first_witness :
  exists f,
    pick_file [("run.txt", File (Some doc_good)); ("run.json", File (Some doc_no_iterations))]
    = Some f
    /\ In f [("run.json", File (Some doc_no_iterations)); ("run.txt", File (Some doc_good))]
    /\ Text.endswith ".json" (fst f) = true
    /\ Text.endswith ".txt" (fst f) = false
    /\ entry_data (Dir [("run.txt", File (Some doc_good));
                        ("run.json", File (Some doc_no_iterations))])
       = Some (read_one_file (snd f)).
Proof.
  apply (pick_file_json_first
           [("run.json", File (Some doc_no_iterations)); ("run.txt", File (Some doc_good))]
           ("run.json", File (Some doc_no_iterations))).
  - simpl. left. reflexivity.
  - reflexivity.
  - apply perm_swap.
Defined.

(* ================================================================= *)
(** ** Runs without iteration data *)

Lemma iteration_table_empty (data : dict) :
  dict_get "lblp_lower" data = None \/ dict_get "lblp_lower" data = Some (JArr []) ->
  process_iteration_data (JObj data) = Ok empty_table.
Proof.
  unfold process_iteration_data, iteration_table, dict_mem, dict_get_default.
  intros [H|H]; rewrite H; reflexivity.
Qed.

Lemma load_files_app dataset condition files1 files2 acc :
  load_files dataset condition (files1 ++ files2) acc
  = load_files dataset condition files2 (load_files dataset condition files1 acc).
Proof. unfold load_files. apply fold_left_app. Qed.

Lemma load_files_cons dataset condition entry files acc :
  load_files dataset condition (entry :: files) acc
  = load_files dataset condition files
      (match load_entry dataset condition entry with
       | Some record => acc ++ [record]
       | None => acc
       end).
Proof. reflexivity. Qed.

Lemma load_entry_file dataset condition file_name content data r :
  parse_custom_json content = Ok data ->
  truthy data = true ->
  make_record dataset condition file_name data = Ok r ->
  load_entry dataset condition (file_name, File (Some content)) = Some r.
Proof.
  intros Hp Ht Hm. unfold load_entry, entry_data, read_one_file, file_text.
  now rewrite Hp, Ht, Hm.
Qed.

(** C6 (as the code has it): for a run document in which [lblp_lower]
    is absent or empty the extractor returns the empty table, and the
    run is kept: once its LP times have been summed, a record with no
    iterations, a missing final bound, no cuts and the empty table is
    made for it, and the loader appends that record to the catalog. *)
Theorem run_without_iterations_recorded
        (dataset condition file_name content : string) (data : dict)
        (total_lp_time : json) (all_results : list run_record) :
  dict_get "lblp_lower" data = None \/ dict_get "lblp_lower" data = Some (JArr []) ->
  total_lp_time_of (JObj data) = Ok total_lp_time ->
  parse_custom_json content = Ok (JObj data) ->
  data <> [] ->
  process_iteration_data (JObj data) = Ok empty_table
  /\ make_record dataset condition file_name (JObj data)
     = Ok (bare_record dataset condition file_name data total_lp_time)
  /\ load_files dataset condition [(file_name, File (Some content))] all_results
     = all_results ++ [bare_record dataset condition file_name data total_lp_time].
Proof.
  intros Hlower Htotal Hparse Hne.
  pose proof (iteration_table_empty data Hlower) as Htable.
  assert (Hrecord : make_record dataset condition file_name (JObj data)
                    = Ok (bare_record dataset condition file_name data total_lp_time)).
  { unfold make_record. rewrite Htable, Htotal. unfold bind at 1.
    assert (Hfinal : final_lb_of (JObj data) = Ok np_nan).
    { destruct Hlower as [H|H];
        [now apply final_lb_of_absent | now rewrite (final_lb_of_array data [] H)]. }
    rewrite Hfinal. simpl.
    assert (Hlen : py_len (dict_get_default "lblp_lower" (JArr []) data) = Ok 0).
    { unfold dict_get_default. destruct Hlower as [H|H]; rewrite H; reflexivity. }
    rewrite Hlen. reflexivity. }
  repeat split; auto.
  rewrite load_files_cons.
  rewrite (load_entry_file dataset condition file_name content (JObj data)
             (bare_record dataset condition file_name data total_lp_time) Hparse); auto.
  destruct data; [congruence | reflexivity].
Qed.

Lemma run_without_iterations_recorded_witness :
  process_iteration_data (JObj [("OUR_ilp_time", JNum 3%float)]) = Ok empty_table
  /\ make_record "C1_numCust_25" "normal" "jy_c101.txt" (JObj [("OUR_ilp_time", JNum 3%float)])
     = Ok (bare_record "C1_numCust_25" "normal" "jy_c101.txt"
             [("OUR_ilp_time", JNum 3%float)] (JNum 0%float))
  /\ load_files "C1_numCust_25" "normal" [("jy_c101.txt", File (Some doc_no_iterations))] []
     = [] ++ [bare_record "C1_numCust_25" "normal" "jy_c101.txt"
                [("OUR_ilp_time", JNum 3%float)] (JNum 0%float)].
Proof.
  apply (run_without_iterations_recorded "C1_numCust_25" "normal" "jy_c101.txt"
           doc_no_iterations [("OUR_ilp_time", JNum 3%float)] (JNum 0%float) []).
  - left. reflexivity.
  - vm_compute. reflexivity.
  - vm_compute. reflexivity.
  - discriminate.
Defined.

(** C6, as stated, fails on the run file [{"OUR_ilp_time": 3}]: it has
    no [lblp_lower], its table is empty, and the catalog loaded from a
    corpus that holds just this file has a record for it. *)
Lemma run_without_iterations_in_catalog :
  match parse_custom_json doc_no_iterations with
  | Ok (JObj data) =>
    dict_get "lblp_lower" data = None
    /\ process_iteration_data (JObj data) = Ok empty_table
  | _ => False
  end
  /\ load_ablation_data
       (Some (corpus "C1_numCust_25" "normal"
                [("jy_c101.txt", File (Some doc_no_iterations))]))
     = Ok [bare_record "C1_numCust_25" "normal" "jy_c101.txt"
             [("OUR_ilp_time", JNum 3%float)] (JNum 0%float)]
  /\ load_ablation_data
       (Some (corpus "C1_numCust_25" "normal"
                [("jy_c101.txt", File (Some doc_no_iterations))]))
     <> Ok [].
Proof.
  split; [vm_compute; split; reflexivity|].
  split; [vm_compute; reflexivity|].
  intros H. vm_compute in H. discriminate H.
Qed.

(* ================================================================= *)
(** ** Failures of single runs *)

Lemma entry_data_read_from file_path :
  entry_data file_path = option_map read_one_file (read_from file_path).
Proof.
  destruct file_path as [content|entries|entries|]; simpl; try reflexivity.
  now destruct (pick_file entries) as [[name f]|].
Qed.

Lemma run_fails_load_entry dataset condition file_name n :
  run_fails dataset condition file_name n ->
  load_entry dataset condition (file_name, n) = None.
Proof.
  intros H. unfold load_entry. rewrite entry_data_read_from.
  destruct H as [f Hf Ht|f content e Hf Ht Hp|f content data e Hf Ht Hp Hm];
    rewrite Hf; unfold read_one_file; cbn [option_map]; rewrite Ht.
  - reflexivity.
  - rewrite Hp. reflexivity.
  - rewrite Hp, Hm. now destruct (truthy data).
Qed.

(** A failed run leaves the catalog as if its file were not there. *)
Lemma load_files_skips_failure dataset condition files1 files2 file_name bad acc :
  run_fails dataset condition file_name bad ->
  load_files dataset condition (files1 ++ (file_name, bad) :: files2) acc
  = load_files dataset condition (files1 ++ files2) acc.
Proof.
  intros H. rewrite !load_files_app, load_files_cons.
  now rewrite (run_fails_load_entry _ _ _ _ H).
Qed.

(** The catalog of a corpus with one dataset and one condition. *)
Lemma load_corpus dataset condition files :
  In dataset datasets ->
  In condition base_conditions ->
  load_ablation_data (Some (corpus dataset condition files))
  = Ok (load_files dataset condition (glob_prefix "jy_" files) []).
Proof.
  intros Hd Hc. simpl in Hd, Hc.
  repeat (destruct Hd as [<-|Hd]; [repeat (destruct Hc as [<-|Hc]; [reflexivity|]); contradiction|]).
  contradiction.
Qed.

(** C8: a corpus whose one condition directory holds a well-formed run
    file and a file that cannot be read, does not parse or fails in
    the extraction loads without error into a catalog with exactly the
    record of the well-formed run, in either listing order; and among
    any files of the condition the failed one is passed over, the
    others being processed as if it were not there. *)
Theorem load_isolates_failed_run
        (dataset condition good_name bad_name content : string)
        (data : json) (bad : node) (r : run_record) :
  In dataset datasets ->
  In condition base_conditions ->
  Text.startswith "jy_" good_name = true ->
  Text.startswith "jy_" bad_name = true ->
  parse_custom_json content = Ok data ->
  truthy data = true ->
  make_record dataset condition good_name data = Ok r ->
  run_fails dataset condition bad_name bad ->
  load_ablation_data
    (Some (corpus dataset condition [(good_name, File (Some content)); (bad_name, bad)]))
  = Ok [r]
  /\ load_ablation_data
       (Some (corpus dataset condition [(bad_name, bad); (good_name, File (Some content))]))
     = Ok [r]
  /\ forall files1 files2 all_results,
       load_files dataset condition (files1 ++ (bad_name, bad) :: files2) all_results
       = load_files dataset condition (files1 ++ files2) all_results.
Proof.
  intros Hd Hc Hg Hb Hparse Htruthy Hrecord Hfails.
  pose proof (load_entry_file _ _ _ _ _ _ Hparse Htruthy Hrecord) as Hgood.
  pose proof (run_fails_load_entry _ _ _ _ Hfails) as Hbad.
  rewrite !load_corpus by assumption.
  unfold glob_prefix. cbn [filter fst]. rewrite Hg, Hb.
  rewrite !load_files_cons, Hgood, Hbad. repeat split.
  intros files1 files2 all_results. now apply load_files_skips_failure.
Qed.

Lemma load_isolates_failed_run_witness :
  load_ablation_data
    (Some (corpus "RC1_numCust_25" "normal"
             [("jy_rc101.txt", File (Some doc_good)); ("jy_rc102.txt", File (Some "{"))]))
  = Ok [record_good]
  /\ load_ablation_data
       (Some (corpus "RC1_numCust_25" "normal"
                [("jy_rc102.txt", File (Some "{")); ("jy_rc101.txt", File (Some doc_good))]))
     = Ok [record_good]
  /\ forall files1 files2 all_results,
       load_files "RC1_numCust_25" "normal"
         (files1 ++ ("jy_rc102.txt", File (Some "{")) :: files2) all_results
       = load_files "RC1_numCust_25" "normal" (files1 ++ files2) all_results.
Proof.
  apply (load_isolates_failed_run "RC1_numCust_25" "normal" "jy_rc101.txt" "jy_rc102.txt"
           doc_good
           (JObj [("lblp_lower", JArr [JNum 10%float; JNum 12%float; JNum 15%float]);
                  ("lp_time_LB", JArr [JNum 1%float; JNum 2%float; JNum 3%float]);
                  ("lp_time_project", JArr [JNum 0.5%float; JNum 0.5%float; JNum 0.5%float]);
                  ("OUR_ilp_time", JNum 3%float)])
           (File (Some "{")) record_good).
  - simpl. do 6 right. left. reflexivity.
  - simpl. left. reflexivity.
  - reflexivity.
  - reflexivity.
  - vm_compute. reflexivity.
  - reflexivity.
  - vm_compute. reflexivity.
  - apply (fails_to_parse _ _ _ _ (File (Some "{")) "{" JSONDecodeError).
    + reflexivity.
    + reflexivity.
    + vm_compute. reflexivity.
Defined.

(* ================================================================= *)
(** ** The core columns of the iteration table *)

Lemma column_set_same name c t : column name (set_column name c t) = Some c.
Proof.
  unfold column, set_column. simpl.
  induction (columns t) as [|[name' c'] cols IH]; simpl.
  - now rewrite String.eqb_refl.
  - destruct (String.eqb name name') eqn:E; simpl.
    + now rewrite String.eqb_refl.
    + now rewrite E.
Qed.

Lemma column_set_other name name' c t :
  name <> name' -> column name (set_column name' c t) = column name t.
Proof.
  intros Hne. apply String.eqb_neq in Hne.
  unfold column, set_column. simpl.
  induction (columns t) as [|[n0 c0] cols IH]; simpl.
  - now rewrite Hne.
  - destruct (String.eqb name' n0) eqn:E; simpl.
    + apply String.eqb_eq in E. subst n0. now rewrite Hne.
    + now rewrite IH.
Qed.

Lemma nans_length n : List.length (nans n) = n.
Proof. apply repeat_length. Qed.

Lemma nans_numbers n : forallb number_or_null (nans n) = true.
Proof. induction n; simpl; auto. Qed.

Lemma length_source_or_missing data n name :
  List.length (source_or_missing data n name) = n.
Proof.
  unfold source_or_missing.
  destruct (dict_get name data) as [[| | | |src|]|]; try apply nans_length.
  destruct (Nat.eqb_spec (List.length src) n); [assumption | apply nans_length].
Qed.

Lemma well_shaped_array data name v :
  well_shaped data = true -> In name core_arrays ->
  dict_get name data = Some v -> exists l, v = JArr l.
Proof.
  unfold well_shaped. intros H Hin Hget.
  apply andb_prop in H. destruct H as [H _].
  rewrite forallb_forall in H. specialize (H name Hin). rewrite Hget in H.
  destruct v; try discriminate. eauto.
Qed.

Lemma well_shaped_numbers data name l :
  well_shaped data = true -> In name ["lp_time_LB"; "lp_time_project"] ->
  dict_get name data = Some (JArr l) -> forallb number_or_null l = true.
Proof.
  unfold well_shaped. intros H Hin Hget.
  apply andb_prop in H. destruct H as [_ H].
  rewrite forallb_forall in H. specialize (H name Hin). now rewrite Hget in H.
Qed.

Lemma core_column_shaped data n name :
  well_shaped data = true -> In name core_arrays ->
  core_column data n name = Ok (source_or_missing data n name).
Proof.
  intros H Hin. unfold core_column, source_or_missing.
  destruct (dict_get name data) as [v|] eqn:E; [|reflexivity].
  destruct (well_shaped_array data name v H Hin E) as [l ->]. simpl.
  now destruct (Nat.eqb (List.length l) n).
Qed.

Lemma source_or_missing_numbers data n name :
  well_shaped data = true -> In name ["lp_time_LB"; "lp_time_project"] ->
  forallb number_or_null (source_or_missing data n name) = true.
Proof.
  intros H Hin. unfold source_or_missing.
  destruct (dict_get name data) as [[| | | |src|]|] eqn:E; try apply nans_numbers.
  destruct (Nat.eqb (List.length src) n); [|apply nans_numbers].
  eapply well_shaped_numbers; eauto.
Qed.

Lemma fillna0_numbers l :
  forallb number_or_null l = true -> forallb is_num (fillna0 l) = true.
Proof.
  induction l as [|x l IH]; simpl; [reflexivity|].
  intros H. apply andb_prop in H. destruct H as [Hx Hl].
  rewrite (IH Hl), andb_true_r.
  destruct x; try discriminate; simpl; [reflexivity|].
  now destruct (Num.is_nan x).
Qed.

Lemma series_add_numbers a b :
  forallb is_num a = true -> forallb is_num b = true ->
  exists c, series_add a b = Ok c /\ forallb is_num c = true.
Proof.
  revert b. induction a as [|x a IH]; intros b Ha Hb.
  - exists []. now destruct b.
  - destruct b as [|y b]; [exists []; split; reflexivity|].
    simpl in Ha, Hb. apply andb_prop in Ha, Hb.
    destruct Ha as [Hx Ha], Hb as [Hy Hb].
    destruct (IH b Ha Hb) as (c & Hc & Hnum).
    destruct x; try discriminate. destruct y; try discriminate.
    simpl. rewrite Hc. simpl. eexists. split; [reflexivity|]. simpl. assumption.
Qed.

Lemma cumsum_from_numbers acc l :
  match acc with Some a => is_num a = true | None => True end ->
  forallb is_num l = true ->
  exists c, cumsum_from acc l = Ok c.
Proof.
  revert acc. induction l as [|x l IH]; intros acc Hacc Hl; simpl.
  - eauto.
  - simpl in Hl. apply andb_prop in Hl. destruct Hl as [Hx Hl].
    destruct x; try discriminate. simpl.
    destruct (Num.is_nan x).
    + destruct (IH acc Hacc Hl) as [c ->]. simpl. eauto.
    + destruct acc as [a|].
      * destruct a; try discriminate. simpl.
        destruct (IH (Some (JNum (Num.add x0 x))) eq_refl Hl) as [c ->]. simpl. eauto.
      * simpl. destruct (IH (Some (JNum x)) eq_refl Hl) as [c ->]. simpl. eauto.
Qed.

Lemma add_core_columns_shaped data n df :
  well_shaped data = true ->
  add_core_columns data n core_arrays df
  = Ok (fold_left (fun t name => set_column name (source_or_missing data n name) t)
          core_arrays df).
Proof.
  intros H. unfold core_arrays. cbn [add_core_columns fold_left].
  repeat (rewrite (core_column_shaped data n) by (auto; simpl; tauto); cbn [bind]).
  reflexivity.
Qed.

Ltac other_column :=
  rewrite column_set_other by (intro; discriminate).

Lemma column_after_stages name data n t :
  In name ("iteration" :: core_arrays) ->
  column name (add_stage_columns data n t) = column name t.
Proof.
  intros Hin. unfold add_stage_columns. cbn [fold_left stages String.append].
  simpl in Hin.
  repeat (destruct Hin as [<-|Hin]; [repeat other_column; reflexivity|]).
  contradiction.
Qed.

Lemma column_after_cuts name data n t :
  In name ("iteration" :: core_arrays) ->
  column name (add_cut_columns data n t) = column name t.
Proof.
  intros Hin. unfold add_cut_columns. cbn [fold_left cut_columns fst snd].
  simpl in Hin.
  repeat (destruct Hin as [<-|Hin]; [repeat other_column; reflexivity|]).
  contradiction.
Qed.

Lemma column_after_core name data n :
  In name core_arrays ->
  column name
    (fold_left (fun t name => set_column name (source_or_missing data n name) t)
       core_arrays (new_table n))
  = Some (source_or_missing data n name).
Proof.
  intros Hin. cbn [fold_left core_arrays]. simpl in Hin.
  repeat (destruct Hin as [<-|Hin];
          [repeat other_column; apply column_set_same|]).
  contradiction.
Qed.

Lemma iteration_after_core data n :
  column "iteration"
    (fold_left (fun t name => set_column name (source_or_missing data n name) t)
       core_arrays (new_table n))
  = Some (map (fun i => JNum (Num.of_nat i)) (seq 1 n)).
Proof. cbn [fold_left core_arrays]. repeat other_column. reflexivity. Qed.

Lemma nrows_fold_set_column {A : Type} (f : table -> A -> table) (l : list A) t :
  (forall t x, nrows (f t x) = nrows t) ->
  nrows (fold_left f l t) = nrows t.
Proof.
  intros Hf. revert t. induction l as [|x l IH]; intros t; simpl; [reflexivity|].
  now rewrite IH, Hf.
Qed.

(** The example of the specification: [lblp_lower] of length 3 and
    [ub_lp] of length 2 give an [ub_lp] column that is missing in all
    three rows. *)
Lemma short_ub_column_missing :
  match process_iteration_data (JObj doc_short_ub) with
  | Ok t =>
    nrows t = 3
    /\ column "ub_lp" t = Some (nans 3)
    /\ column "lp_time_LB" t = Some [JNum 1%float; JNull; JNum 2%float]
  | Raise _ => False
  end.
Proof. vm_compute. repeat split; reflexivity. Qed.

(* ================================================================= *)
(** ** The catalog queries *)

Lemma unique_from_In seen l x :
  In x (unique_from seen l) <-> In x l /\ ~ In x seen.
Proof.
  revert seen. induction l as [|y l IH]; intros seen; simpl; [tauto|].
  destruct (existsb (String.eqb y) seen) eqn:E.
  - rewrite IH. apply existsb_exists in E. destruct E as (z & Hz & Hyz).
    apply String.eqb_eq in Hyz. subst z.
    split; [tauto|]. intros [[->|H] Hn]; [contradiction | tauto].
  - assert (Hy : ~ In y seen).
    { intros Hin. apply Bool.not_true_iff_false in E. apply E.
      apply existsb_exists. exists y. split; [assumption | apply String.eqb_refl]. }
    simpl. rewrite IH. simpl. split.
    + intros [->|[H Hn]]; [tauto|]. split; [tauto|]. intros Hs. apply Hn. now right.
    + intros [[->|H] Hn]; [now left|].
      destruct (string_dec y x) as [->|Hne]; [now left|].
      right. split; [assumption|]. intros [Heq|Hs]; [contradiction | tauto].
Qed.

Lemma unique_from_NoDup seen l : NoDup (unique_from seen l).
Proof.
  revert seen. induction l as [|y l IH]; intros seen; simpl; [constructor|].
  destruct (existsb (String.eqb y) seen); [apply IH|].
  constructor; [|apply IH].
  rewrite unique_from_In. simpl. tauto.
Qed.

Lemma insert_sorted_In x l y : In y (insert_sorted x l) <-> y = x \/ In y l.
Proof.
  induction l as [|z l IH]; simpl; [intuition|].
  destruct (String.leb x z); simpl; [intuition|].
  rewrite IH. intuition.
Qed.

Lemma sorted_In l y : In y (sorted l) <-> In y l.
Proof.
  induction l as [|x l IH]; simpl; [tauto|].
  rewrite insert_sorted_In, IH. intuition.
Qed.

Lemma insert_sorted_NoDup x l : ~ In x l -> NoDup l -> NoDup (insert_sorted x l).
Proof.
  induction l as [|z l IH]; simpl; intros Hn Hd; [repeat constructor; auto|].
  destruct (String.leb x z); [constructor; simpl; auto|].
  inversion Hd; subst. constructor.
  - rewrite insert_sorted_In. intros [->|H]; [apply Hn; now left | contradiction].
  - apply IH; auto.
Qed.

Lemma sorted_NoDup l : NoDup l -> NoDup (sorted l).
Proof.
  induction l as [|x l IH]; simpl; intros H; [constructor|].
  inversion H; subst. apply insert_sorted_NoDup; [now rewrite sorted_In | auto].
Qed.

Lemma insert_sorted_Sorted x l :
  Sorted (fun a b => String.leb a b = true) l ->
  Sorted (fun a b => String.leb a b = true) (insert_sorted x l).
Proof.
  induction l as [|z l IH]; simpl; intros H; [repeat constructor|].
  destruct (String.leb x z) eqn:E; [constructor; [exact H | constructor; exact E]|].
  inversion H as [|? ? Hs Hr]; subst. constructor; [auto|].
  assert (Hzx : String.leb z x = true)
    by (destruct (String.leb_total x z) as [C|C]; [congruence | exact C]).
  destruct l as [|w l]; simpl; [constructor; exact Hzx|].
  destruct (String.leb x w); constructor; [exact Hzx|].
  now inversion Hr.
Qed.

Lemma sorted_Sorted l : Sorted (fun a b => String.leb a b = true) (sorted l).
Proof.
  induction l as [|x l IH]; simpl; [constructor | now apply insert_sorted_Sorted].
Qed.

Lemma leb_neq_ltb a b : String.leb a b = true -> a <> b -> String.ltb a b = true.
Proof.
  unfold String.leb, String.ltb. intros H Hne.
  destruct (String.compare a b) eqn:E; [|reflexivity|discriminate].
  apply String.compare_eq_iff in E. contradiction.
Qed.

Lemma Sorted_NoDup_ascending l :
  Sorted (fun a b => String.leb a b = true) l -> NoDup l -> ascending l.
Proof.
  unfold ascending. induction l as [|x l IH]; intros Hs Hd; [constructor|].
  inversion Hs as [|? ? Hs' Hr]; subst. inversion Hd as [|? ? Hx Hd']; subst.
  constructor; [auto|].
  destruct l as [|y l]; constructor.
  inversion Hr; subst. apply leb_neq_ltb; [assumption|].
  intros ->. apply Hx. now left.
Qed.

Lemma available_instances_spec (df : list run_record) (n : nat) (c : string) :
  df <> [] ->
  exists l,
    get_available_instances df n c = Ok l
    /\ ascending l
    /\ NoDup l
    /\ forall x, In x l <->
                 exists r, In r df /\ num_cust r = n /\ condition r = c /\ instance r = x.
Proof.
  intros Hne. destruct df as [|r0 df0]; [congruence|].
  set (df := r0 :: df0).
  set (filtered := filter (fun r => Nat.eqb (num_cust r) n && String.eqb (condition r) c) df).
  exists (sorted (unique (map instance filtered))).
  split; [reflexivity|].
  assert (Hd : NoDup (sorted (unique (map instance filtered))))
    by apply sorted_NoDup, unique_from_NoDup.
  split; [apply Sorted_NoDup_ascending; [apply sorted_Sorted | exact Hd]|].
  split; [exact Hd|].
  intros x. rewrite sorted_In. unfold unique. rewrite unique_from_In, in_map_iff.
  unfold filtered. split.
  - intros [(r & Hx & Hin) _]. apply filter_In in Hin. destruct Hin as [Hin Hsel].
    apply andb_prop in Hsel. destruct Hsel as [Hn Hc].
    apply Nat.eqb_eq in Hn. apply String.eqb_eq in Hc. eauto.
  - intros (r & Hin & Hn & Hc & Hx). split; [|tauto].
    exists r. split; [assumption|]. apply filter_In. split; [assumption|].
    apply andb_true_intro. split; [now apply Nat.eqb_eq | now apply String.eqb_eq].
Qed.

(** On a catalog with records, the instances listed for a customer
    count and a condition are in strictly ascending order, without
    repetition, and are exactly the instance names of the records with
    that customer count and condition. *)
Theorem available_instances_listing (df : list run_record) (n : nat) (c : string) :
  df <> [] ->
  exists l,
    get_available_instances df n c = Ok l
    /\ ascending l
    /\ NoDup l
    /\ forall x, In x l <->
                 exists r, In r df /\ num_cust r = n /\ condition r = c /\ instance r = x.
Proof. apply available_instances_spec. Qed.

Lemma available_instances_listing_witness :
  exists l,
    get_available_instances [record_good] 25 "normal" = Ok l
    /\ ascending l
    /\ NoDup l
    /\ forall x, In x l <->
                 exists r, In r [record_good] /\ num_cust r = 25
                           /\ condition r = "normal" /\ instance r = x.
Proof. apply (available_instances_listing [record_good] 25 "normal"). discriminate. Defined.

Lemma filter_first_match {A : Type} (p : A -> bool) (before after : list A) (r : A) :
  (forall x, In x before -> p x = false) ->
  p r = true ->
  filter p (before ++ r :: after) = r :: filter p after.
Proof.
  intros Hb Hr. induction before as [|x before IH]; simpl.
  - now rewrite Hr.
  - rewrite (Hb x) by now left. apply IH. intros y Hy. apply Hb. now right.
Qed.

Lemma nonempty_app {A : Type} (before after : list A) (r : A) :
  exists x l, before ++ r :: after = x :: l.
Proof. destruct before; simpl; eauto. Qed.

Lemma get_iteration_data_shows
      (before after : list run_record) (r : run_record) (i c : string) :
  (forall x, In x before -> selects i c x = false) ->
  selects i c r = true ->
  get_iteration_data (before ++ r :: after) i c = Ok (shown_table r).
Proof.
  intros Hb Hr. unfold get_iteration_data.
  rewrite (filter_first_match _ _ _ _ Hb Hr). unfold shown_table.
  destruct (nonempty_app before after r) as (x & l & ->).
  now destruct (table_empty (iteration_data r)).
Qed.

(** The table returned for an instance and a condition is the table of
    the first record of the catalog with that instance and condition,
    and nothing when that table is empty: later records with the same
    instance and condition are never looked at, whatever they hold. *)
Theorem get_iteration_data_first_match
        (before after : list run_record) (r : run_record) (i c : string) :
  (forall x, In x before -> selects i c x = false) ->
  selects i c r = true ->
  get_iteration_data (before ++ r :: after) i c = Ok (shown_table r)
  /\ get_iteration_data (before ++ r :: after) i c = get_iteration_data [r] i c.
Proof.
  intros Hb Hr. rewrite (get_iteration_data_shows _ _ _ _ _ Hb Hr).
  split; [reflexivity|].
  symmetry. apply (get_iteration_data_shows [] [] r i c); [intros x [] | exact Hr].
Qed.

Lemma get_iteration_data_first_match_witness :
  get_iteration_data ([] ++ record_good :: [record_good]) "rc101" "normal"
  = Ok (shown_table record_good)
  /\ get_iteration_data ([] ++ record_good :: [record_good]) "rc101" "normal"
     = get_iteration_data [record_good] "rc101" "normal".
Proof.
  apply (get_iteration_data_first_match [] [record_good] record_good "rc101" "normal").
  - intros x [].
  - reflexivity.
Defined.

(** An instance listed for one customer count is shown with the data
    of the first record of that instance and condition, also when that
    record belongs to another customer count: the customer count takes
    no part in the choice of the table. *)
Theorem listed_instance_shows_first_record
        (before mid after : list run_record) (r1 r2 : run_record) (i c : string) (n : nat) :
  (forall x, In x before -> selects i c x = false) ->
  selects i c r1 = true ->
  selects i c r2 = true ->
  num_cust r2 = n ->
  (exists l, get_available_instances (before ++ r1 :: mid ++ r2 :: after) n c = Ok l
             /\ In i l)
  /\ get_iteration_data (before ++ r1 :: mid ++ r2 :: after) i c = Ok (shown_table r1).
Proof.
  intros Hb H1 H2 Hn. split; [|now apply get_iteration_data_shows].
  destruct (available_instances_spec (before ++ r1 :: mid ++ r2 :: after) n c)
    as (l & Hl & _ & _ & Hin).
  { destruct (nonempty_app before (mid ++ r2 :: after) r1) as (x & l & ->). discriminate. }
  exists l. split; [exact Hl|]. apply Hin. exists r2.
  unfold selects in H2. apply andb_prop in H2. destruct H2 as [Hi Hc].
  apply String.eqb_eq in Hi, Hc.
  repeat split; auto.
  apply in_or_app. right. right. apply in_or_app. right. now left.
Qed.

Lemma listed_instance_shows_first_record_witness :
  (exists l, get_available_instances ([] ++ record_good :: [] ++ record_other :: []) 50 "normal"
             = Ok l /\ In "rc101" l)
  /\ get_iteration_data ([] ++ record_good :: [] ++ record_other :: []) "rc101" "normal"
     = Ok (shown_table record_good).
Proof.
  apply (listed_instance_shows_first_record [] [] [] record_good record_other
           "rc101" "normal" 50).
  - intros x [].
  - reflexivity.
  - reflexivity.
  - reflexivity.
Defined.

Lemma filter_no_match {A : Type} (p : A -> bool) (l : list A) :
  (forall x, In x l -> p x = false) -> filter p l = [].
Proof.
  induction l as [|x l IH]; intros H; simpl; [reflexivity|].
  rewrite (H x) by now left. apply IH. intros y Hy. apply H. now right.
Qed.

(** For an instance and condition that no record of a catalog has, the
    queries answer without error: no table, and an empty mapping of
    statistics. *)
Theorem queries_without_match (df : list run_record) (i c : string) :
  df <> [] ->
  (forall x, In x df -> selects i c x = false) ->
  get_iteration_data df i c = Ok None
  /\ get_summary_stats df i c = Ok [].
Proof.
  intros Hne H. destruct df as [|r df]; [congruence|].
  unfold get_iteration_data, get_summary_stats.
  now rewrite (filter_no_match _ _ H).
Qed.

Lemma queries_without_match_witness :
  get_iteration_data [record_good] "c101" "normal" = Ok None
  /\ get_summary_stats [record_good] "c101" "normal" = Ok [].
Proof.
  apply (queries_without_match [record_good] "c101" "normal").
  - discriminate.
  - intros x [<-|[]]. reflexivity.
Defined.

Lemma last_hd_rev {A : Type} (l : list A) (d : A) :
  l <> [] -> hd_error (rev l) = Some (last l d).
Proof.
  intros H. destruct l as [|x l] using rev_ind; [congruence|].
  now rewrite rev_app_distr, last_last.
Qed.

Lemma lb_improvement_numbers col :
  forallb number_or_null col = true ->
  lb_improvement col = Ok (bound_improvement col).
Proof.
  intros Hcol. unfold lb_improvement, bound_improvement, first_non_missing, last_non_missing.
  assert (Hb : forallb is_num (filter (fun x => negb (isna x)) col) = true).
  { apply forallb_forall. intros x Hx. apply filter_In in Hx. destruct Hx as [Hx Hn].
    rewrite forallb_forall in Hcol. specialize (Hcol x Hx).
    destruct x; try discriminate; reflexivity. }
  destruct (filter (fun x => negb (isna x)) col) as [|first bounds] eqn:E; [reflexivity|].
  assert (Hbool : forallb is_bool col = false).
  { apply Bool.not_true_iff_false. intros Hall. rewrite forallb_forall in Hall.
    assert (Hin : In first col).
    { assert (H : In first (first :: bounds)) by now left.
      rewrite <- E in H. now apply filter_In in H. }
    specialize (Hall first Hin).
    simpl in Hb. apply andb_prop in Hb. destruct Hb as [Hb _].
    destruct first; discriminate. }
  rewrite Hbool.
  rewrite (last_hd_rev (first :: bounds) first) by discriminate.
  cbn [hd_error].
  assert (Hlast : is_num (last (first :: bounds) first) = true).
  { rewrite forallb_forall in Hb. apply Hb.
    destruct (exists_last (l := first :: bounds)) as (l' & a & Hla); [discriminate|].
    rewrite Hla, last_last. apply in_or_app. right. now left. }
  simpl in Hb. apply andb_prop in Hb. destruct Hb as [Hf _].
  destruct first; try discriminate.
  destruct (last (JNum x :: bounds) (JNum x)); try discriminate.
  reflexivity.
Qed.

Lemma lb_improvement_raises col e :
  lb_improvement col = Raise e -> e = TypeError /\ forallb number_or_null col = false.
Proof.
  intros H. split.
  - unfold lb_improvement in H.
    destruct (filter (fun x => negb (isna x)) col) as [|first bounds]; [discriminate|].
    destruct (forallb is_bool col); [now inversion H|].
    destruct (as_number (last (first :: bounds) first)); [|now inversion H].
    destruct (as_number first); [discriminate | now inversion H].
  - destruct (forallb number_or_null col) eqn:E; [|reflexivity].
    rewrite (lb_improvement_numbers col E) in H. discriminate.
Qed.

(** The statistics of an instance and condition come from the first
    record of the catalog that has them.  Whenever they are returned
    they carry the seven summary values of that record.  They are
    these seven values alone when the table of the record is empty or
    has no lower bound column.  When the table has rows and its lower
    bound column holds numbers and missing values, the improvement
    "last non-missing bound minus first non-missing bound" is added,
    unless every bound is missing.  The query raises only [TypeError],
    and only for a table with rows whose lower bound column holds
    something else than numbers and missing values. *)
Theorem summary_stats_of_first_match
        (before after : list run_record) (r : run_record) (i c : string) :
  (forall x, In x before -> selects i c x = false) ->
  selects i c r = true ->
  (forall stats,
      get_summary_stats (before ++ r :: after) i c = Ok stats ->
      dict_get "Root LP" stats = Some (root_lp r)
      /\ dict_get "Final LB" stats = Some (final_lb r)
      /\ dict_get "ILP Objective" stats = Some (ilp_objective r)
      /\ dict_get "ILP Time" stats = Some (ilp_time r)
      /\ dict_get "Total LP Time" stats = Some (total_lp_time r)
      /\ dict_get "Iterations" stats = Some (JNum (Num.of_nat (iterations r)))
      /\ dict_get "Total Cuts" stats = Some (total_cuts r))
  /\ (table_empty (iteration_data r) = true
      \/ column "lblp_lower" (iteration_data r) = None ->
      get_summary_stats (before ++ r :: after) i c = Ok (summary_values r))
  /\ (forall col,
         table_empty (iteration_data r) = false ->
         column "lblp_lower" (iteration_data r) = Some col ->
         forallb number_or_null col = true ->
         get_summary_stats (before ++ r :: after) i c
         = Ok (match bound_improvement col with
               | Some v => summary_values r ++ [("LB Improvement", v)]
               | None => summary_values r
               end))
  /\ (forall e,
         get_summary_stats (before ++ r :: after) i c = Raise e ->
         e = TypeError
         /\ table_empty (iteration_data r) = false
         /\ exists col,
              column "lblp_lower" (iteration_data r) = Some col
              /\ forallb number_or_null col = false).
Proof.
  intros Hb Hr.
  unfold get_summary_stats.
  rewrite (filter_first_match _ _ _ _ Hb Hr).
  destruct (nonempty_app before after r) as (x & l & ->).
  fold (summary_values r).
  destruct (table_empty (iteration_data r)) eqn:Hne; cbn [negb].
  { split; [|split; [|split]].
    - intros stats H. inversion H. repeat split.
    - reflexivity.
    - discriminate.
    - discriminate. }
  destruct (column "lblp_lower" (iteration_data r)) as [col|] eqn:Hcol.
  2:{ split; [|split; [|split]].
      - intros stats H. inversion H. repeat split.
      - reflexivity.
      - discriminate.
      - discriminate. }
  split; [|split; [|split]].
  - intros stats H.
    destruct (lb_improvement col) as [[v|]|e]; cbn [bind] in H; inversion H;
      repeat split.
  - intros [H|H]; discriminate.
  - intros col' _ Hcol' Hnum. inversion Hcol'; subst col'.
    rewrite (lb_improvement_numbers col Hnum). cbn [bind].
    destruct (bound_improvement col); reflexivity.
  - intros e H.
    destruct (lb_improvement col) as [[v|]|e'] eqn:E; cbn [bind] in H; try discriminate.
    inversion H; subst e'. destruct (lb_improvement_raises col e E) as [-> Hn].
    repeat split. exists col. auto.
Qed.

Lemma summary_stats_of_first_match_witness :
  (forall stats,
      get_summary_stats ([] ++ record_good :: [record_other]) "rc101" "normal" = Ok stats ->
      dict_get "Root LP" stats = Some (root_lp record_good)
      /\ dict_get "Final LB" stats = Some (final_lb record_good)
      /\ dict_get "ILP Objective" stats = Some (ilp_objective record_good)
      /\ dict_get "ILP Time" stats = Some (ilp_time record_good)
      /\ dict_get "Total LP Time" stats = Some (total_lp_time record_good)
      /\ dict_get "Iterations" stats = Some (JNum (Num.of_nat (iterations record_good)))
      /\ dict_get "Total Cuts" stats = Some (total_cuts record_good))
  /\ (table_empty (iteration_data record_good) = true
      \/ column "lblp_lower" (iteration_data record_good) = None ->
      get_summary_stats ([] ++ record_good :: [record_other]) "rc101" "normal"
      = Ok (summary_values record_good))
  /\ (forall col,
         table_empty (iteration_data record_good) = false ->
         column "lblp_lower" (iteration_data record_good) = Some col ->
         forallb number_or_null col = true ->
         get_summary_stats ([] ++ record_good :: [record_other]) "rc101" "normal"
         = Ok (match bound_improvement col with
               | Some v => summary_values record_good ++ [("LB Improvement", v)]
               | None => summary_values record_good
               end))
  /\ (forall e,
         get_summary_stats ([] ++ record_good :: [record_other]) "rc101" "normal" = Raise e ->
         e = TypeError
         /\ table_empty (iteration_data record_good) = false
         /\ exists col,
              column "lblp_lower" (iteration_data record_good) = Some col
              /\ forallb number_or_null col = false).
Proof.
  apply (summary_stats_of_first_match [] [record_other] record_good "rc101" "normal").
  - intros x [].
  - reflexivity.
Defined.

Lemma summary_stats_example :
  get_summary_stats [record_good] "rc101" "normal"
  = Ok [ ("Root LP", np_nan); ("Final LB", JNum 15%float); ("ILP Objective", np_nan);
         ("ILP Time", JNum 3%float); ("Total LP Time", JNum 7.5%float);
         ("Iterations", JNum 3%float); ("Total Cuts", JNum 0%float);
         ("LB Improvement", JNum 5%float) ].
Proof. vm_compute. reflexivity. Qed.

(* ================================================================= *)
(** ** The shape of the iteration table *)

Lemma names_put name c cols :
  map fst (put name c cols) = add_name (map fst cols) name.
Proof.
  unfold add_name. induction cols as [|[n0 c0] cols IH]; simpl; [reflexivity|].
  destruct (String.eqb_spec name n0) as [->|Hne]; simpl; [reflexivity|].
  rewrite IH. now destruct (existsb (String.eqb name) (map fst cols)).
Qed.

Lemma names_set_column name c t :
  map fst (columns (set_column name c t)) = add_name (map fst (columns t)) name.
Proof. apply names_put. Qed.

Lemma rectangular_set_column name c t :
  rectangular t -> List.length c = nrows t -> rectangular (set_column name c t).
Proof.
  unfold rectangular, set_column. simpl. intros H Hc.
  induction (columns t) as [|[n0 c0] cols IH]; simpl.
  - constructor; [exact Hc | constructor].
  - inversion H; subst. destruct (String.eqb name n0); constructor; auto.
Qed.

Lemma rectangular_column name t col :
  rectangular t -> column name t = Some col -> List.length col = nrows t.
Proof.
  unfold rectangular, column. intros H.
  induction (columns t) as [|[n0 c0] cols IH]; simpl; [discriminate|].
  inversion H; subst. destruct (String.eqb name n0); [|auto].
  intros E. inversion E; subst. assumption.
Qed.

Lemma core_column_length data n name c :
  core_column data n name = Ok c -> List.length c = n.
Proof.
  unfold core_column. destruct (dict_get name data) as [v|].
  - destruct v; simpl; try discriminate;
      match goal with
      | |- (if Nat.eqb ?m n then _ else _) = _ -> _ =>
        destruct (Nat.eqb_spec m n); intros H; inversion H; subst;
          try apply repeat_length; try apply nans_length; auto
      end.
  - intros H. inversion H. apply nans_length.
Qed.

Lemma record_column_length data n field key :
  List.length (record_column data n field key) = n.
Proof.
  unfold record_column.
  destruct (dict_get field data) as [[| | | |items|]|]; try apply nans_length.
  destruct (Nat.eqb_spec (List.length items) n); [|apply nans_length].
  now rewrite length_map.
Qed.

(** The loop over the core arrays, when it ends without error. *)
Lemma add_core_columns_inv data n names df t :
  add_core_columns data n names df = Ok t ->
  nrows t = nrows df
  /\ map fst (columns t) = fold_left add_name names (map fst (columns df))
  /\ (rectangular df -> nrows df = n -> rectangular t).
Proof.
  revert df. induction names as [|name names IH]; intros df H; simpl in H.
  - inversion H; subst. auto.
  - destruct (core_column data n name) as [c|] eqn:E; [|discriminate].
    simpl in H. apply IH in H. destruct H as (Hn & Hnames & Hrect).
    split; [exact Hn|]. split.
    + rewrite Hnames, names_set_column. reflexivity.
    + intros Hdf Hrows. apply Hrect; [|exact Hrows].
      apply rectangular_set_column; [exact Hdf|].
      rewrite Hrows. now apply core_column_length in E.
Qed.

Lemma series_add_length a b c :
  series_add a b = Ok c -> List.length a = List.length b -> List.length c = List.length a.
Proof.
  revert b c. induction a as [|x a IH]; intros b c H Hl.
  - destruct b; inversion H; reflexivity.
  - destruct b as [|y b]; [discriminate|]. simpl in H.
    destruct (py_add x y); [|discriminate]. simpl in H.
    destruct (series_add a b) as [rest|] eqn:E; [|discriminate].
    inversion H; subst. simpl. f_equal. eapply IH; eauto.
Qed.

Lemma cumsum_from_length acc c r :
  cumsum_from acc c = Ok r -> List.length r = List.length c.
Proof.
  revert acc r. induction c as [|x c IH]; intros acc r H; simpl in H.
  - inversion H. reflexivity.
  - destruct (isna x).
    + destruct (cumsum_from acc c) as [rest|] eqn:E; [|discriminate].
      inversion H; subst. simpl. f_equal. eauto.
    + destruct (match acc with Some a => py_add a x | None => Ok x end) as [s|];
        [|discriminate].
      simpl in H. destruct (cumsum_from (Some s) c) as [rest|] eqn:E; [|discriminate].
      inversion H; subst. simpl. f_equal. eauto.
Qed.

Lemma fillna0_length c : List.length (fillna0 c) = List.length c.
Proof. apply length_map. Qed.

Lemma add_cumulative_time_inv n df t :
  add_cumulative_time n df = Ok t ->
  exists c,
    t = set_column "cumulative_time" c df
    /\ (rectangular df -> nrows df = n -> List.length c = n).
Proof.
  unfold add_cumulative_time.
  destruct (column "lp_time_LB" df) as [lb|] eqn:Elb;
    [destruct (column "lp_time_project" df) as [project|] eqn:Epr|].
  - destruct (series_add (fillna0 lb) (fillna0 project)) as [total|] eqn:Et; [|discriminate].
    simpl. unfold cumsum. destruct (cumsum_from None total) as [c|] eqn:Ec; [|discriminate].
    intros H. inversion H; subst. exists c. split; [reflexivity|].
    intros Hrect Hrows.
    pose proof (rectangular_column _ _ _ Hrect Elb) as Hlb.
    pose proof (rectangular_column _ _ _ Hrect Epr) as Hpr.
    apply cumsum_from_length in Ec. rewrite Ec.
    apply series_add_length in Et; rewrite ?fillna0_length in *; congruence.
  - intros H. inversion H. eexists. split; [reflexivity|]. intros _ _. apply nans_length.
  - intros H. inversion H. eexists. split; [reflexivity|]. intros _ _. apply nans_length.
Qed.

(** The steps of [iteration_table] on a document with rows. *)
Lemma iteration_table_inv data t :
  iteration_table data = Ok t ->
  t = empty_table
  \/ exists n core c,
       py_len (dict_get_default "lblp_lower" (JArr []) data) = Ok n
       /\ n <> 0
       /\ add_core_columns data n core_arrays (new_table n) = Ok core
       /\ t = set_column "cumulative_time" c
                (add_cut_columns data n (add_stage_columns data n core))
       /\ (rectangular (add_cut_columns data n (add_stage_columns data n core)) ->
           List.length c = n).
Proof.
  unfold iteration_table.
  destruct (dict_mem "lblp_lower" data); cbn [negb]; [|intros H; inversion H; now left].
  destruct (py_len (dict_get_default "lblp_lower" (JArr []) data)) as [n|];
    cbn [bind]; [|discriminate].
  destruct (Nat.eqb_spec n 0) as [->|Hn]; [intros H; inversion H; now left|].
  destruct (add_core_columns data n core_arrays (new_table n)) as [core|] eqn:Ecore;
    cbn [bind]; [|discriminate].
  intros H. apply add_cumulative_time_inv in H. destruct H as (c & -> & Hc).
  right. exists n, core, c. repeat split; auto.
  intros Hrect. apply Hc; [exact Hrect|].
  unfold add_cut_columns, add_stage_columns.
  rewrite !nrows_fold_set_column; try reflexivity.
  - now apply add_core_columns_inv in Ecore.
  - intros t0 [stage_name suffix]. reflexivity.
Qed.

Lemma rectangular_stage_columns data n t :
  rectangular t -> nrows t = n -> rectangular (add_stage_columns data n t).
Proof.
  intros H Hn. unfold add_stage_columns. cbn [fold_left stages].
  repeat (apply rectangular_set_column;
          [|cbn [nrows set_column]; rewrite record_column_length; congruence]).
  exact H.
Qed.

Lemma rectangular_cut_columns data n t :
  rectangular t -> nrows t = n -> rectangular (add_cut_columns data n t).
Proof.
  intros H Hn. unfold add_cut_columns. cbn [fold_left cut_columns].
  repeat (apply rectangular_set_column;
          [|cbn [nrows set_column]; rewrite record_column_length; congruence]).
  exact H.
Qed.

Lemma rectangular_new_table n : rectangular (new_table n).
Proof.
  unfold rectangular, new_table. simpl. constructor; [|constructor].
  simpl. now rewrite length_map, length_seq.
Qed.

Lemma process_iteration_data_not_dict data t :
  process_iteration_data data = Ok t ->
  (forall d, data <> JObj d) -> t = empty_table.
Proof.
  intros H Hd. destruct data; simpl in H; try discriminate;
    try (exfalso; eapply Hd; reflexivity);
    match type of H with
    | (if negb ?b then _ else _) = _ => destruct b; simpl in H; [discriminate|]
    end; now inversion H.
Qed.

(** Whatever the document, a table that [process_iteration_data]
    returns is either the empty table or a table with at least one
    row, the eighteen columns of the extraction in their fixed order,
    and one cell in every column for every row. *)
Theorem iteration_table_shape (data : json) (t : table) :
  process_iteration_data data = Ok t ->
  t = empty_table
  \/ (0 < nrows t
      /\ map fst (columns t) = iteration_columns
      /\ rectangular t
      /\ table_empty t = false).
Proof.
  intros H.
  destruct data as [| | | | |d];
    try (left; apply (process_iteration_data_not_dict _ _ H); intros d0; discriminate).
  simpl in H. apply iteration_table_inv in H.
  destruct H as [->|(n & core & c & Hlen & Hn & Hcore & -> & Hc)]; [now left|].
  right. apply add_core_columns_inv in Hcore. destruct Hcore as (Hrows & Hnames & Hrect).
  assert (Hdf : rectangular (add_cut_columns d n (add_stage_columns d n core)))
    by (apply rectangular_cut_columns;
        [apply rectangular_stage_columns; auto using rectangular_new_table|];
        unfold add_stage_columns; rewrite nrows_fold_set_column; auto;
        intros t0 [stage_name suffix]; reflexivity) .
  assert (Hr : nrows (set_column "cumulative_time" c
                        (add_cut_columns d n (add_stage_columns d n core))) = n).
  { cbn [nrows set_column]. unfold add_cut_columns, add_stage_columns.
    rewrite !nrows_fold_set_column; auto.
    intros t0 [stage_name suffix]. reflexivity. }
  assert (Hnm : map fst (columns (set_column "cumulative_time" c
                        (add_cut_columns d n (add_stage_columns d n core))))
                = iteration_columns).
  { unfold add_cut_columns, add_stage_columns. cbn [fold_left stages cut_columns fst snd].
    rewrite !names_set_column, Hnames. reflexivity. }
  split; [rewrite Hr; lia|]. split; [exact Hnm|]. split.
  - apply rectangular_set_column; [exact Hdf|].
    rewrite Hc by exact Hdf.
    unfold add_cut_columns, add_stage_columns.
    rewrite !nrows_fold_set_column; auto.
    intros t0 [stage_name suffix]. reflexivity.
  - unfold table_empty. rewrite Hr.
    rewrite <- (length_map fst), Hnm.
    destruct (Nat.eqb_spec n 0); [contradiction | reflexivity].
Qed.

Lemma iteration_table_shape_witness :
  table_times = empty_table
  \/ (0 < nrows table_times
      /\ map fst (columns table_times) = iteration_columns
      /\ rectangular table_times
      /\ table_empty table_times = false).
Proof.
  apply (iteration_table_shape (JObj doc_times) table_times).
  vm_compute. reflexivity.
Defined.

Lemma column_of_table c t d n core :
  t = set_column "cumulative_time" c (add_cut_columns d n (add_stage_columns d n core)) ->
  forall colname field key,
    In (colname, field, key) derived_columns ->
    column colname t = Some (record_column d n field key).
Proof.
  intros -> colname field key Hin.
  unfold add_cut_columns, add_stage_columns.
  cbn [fold_left stages cut_columns fst snd String.append].
  simpl in Hin.
  repeat (destruct Hin as [Hin|Hin];
          [inversion Hin; subst; repeat other_column; apply column_set_same|]).
  contradiction.
Qed.



Lemma table_stages_example :
  column "start_timeGraph" table_stages = Some [JNum 5%float; np_nan]
  /\ column "start_ngGraph" table_stages = Some [np_nan; np_nan]
  /\ column "cut_TOT_gen_cut" table_stages = Some [np_nan; np_nan].
Proof. repeat split. Qed.

(* ================================================================= *)
(** ** What every record holds *)

Lemma iteration_table_rows data t :
  iteration_table data = Ok t ->
  py_len (dict_get_default "lblp_lower" (JArr []) data) = Ok (nrows t).
Proof.
  intros H. pose proof H as H0. apply iteration_table_inv in H.
  destruct H as [->|(n & core & c & Hlen & Hn & Hcore & -> & Hc)].
  - revert H0. unfold iteration_table, dict_mem, dict_get_default.
    destruct (dict_get "lblp_lower" data) as [v|]; cbn [negb]; [|reflexivity].
    destruct (py_len v) as [n|]; cbn [bind]; [|discriminate].
    destruct (Nat.eqb_spec n 0) as [->|Hn]; [reflexivity|].
    destruct (add_core_columns data n core_arrays (new_table n)) as [core|] eqn:Ecore;
      cbn [bind]; [|discriminate].
    intros H. apply add_cumulative_time_inv in H. destruct H as (c & H & _).
    exfalso. apply (f_equal nrows) in H. revert H.
    cbn [nrows set_column empty_table]. unfold add_cut_columns, add_stage_columns.
    rewrite !nrows_fold_set_column; try reflexivity.
    + apply add_core_columns_inv in Ecore. destruct Ecore as (-> & _). simpl. congruence.
    + intros t0 [stage_name suffix]. reflexivity.
  - rewrite Hlen. f_equal. cbn [nrows set_column].
    unfold add_cut_columns, add_stage_columns.
    rewrite !nrows_fold_set_column; try reflexivity.
    + apply add_core_columns_inv in Hcore. now destruct Hcore as (-> & _).
    + intros t0 [stage_name suffix]. reflexivity.
Qed.

Lemma make_record_inv dataset_ condition_ file_name data r :
  make_record dataset_ condition_ file_name data = Ok r ->
  exists d table root final objective time total n cuts,
    data = JObj d
    /\ iteration_table d = Ok table
    /\ final_lb_of data = Ok final
    /\ total_lp_time_of data = Ok total
    /\ py_len (dict_get_default "lblp_lower" (JArr []) d) = Ok n
    /\ total_cuts_of table = Ok cuts
    /\ r = {| dataset := dataset_;
              num_cust := num_cust_of dataset_;
              instance_type := instance_type_of dataset_;
              condition := condition_;
              instance := extract_instance_name file_name;
              root_lp := root;
              final_lb := final;
              ilp_objective := objective;
              ilp_time := time;
              total_lp_time := total;
              iterations := n;
              total_cuts := cuts;
              iteration_data := table |}.
Proof.
  unfold make_record. intros H.
  destruct (process_iteration_data data) as [table|] eqn:Et; cbn [bind] in H; [|discriminate].
  destruct data as [| | | | |d]; try discriminate.
  cbn [py_get bind] in H.
  destruct (final_lb_of (JObj d)) as [final|] eqn:Ef; cbn [bind] in H; [|discriminate].
  destruct (total_lp_time_of (JObj d)) as [total|] eqn:El; cbn [bind] in H; [|discriminate].
  destruct (py_len (dict_get_default "lblp_lower" (JArr []) d)) as [n|] eqn:En;
    cbn [bind] in H; [|discriminate].
  destruct (total_cuts_of table) as [cuts|] eqn:Ec; cbn [bind] in H; [|discriminate].
  inversion H; subst. repeat eexists; eauto.
Qed.

(** Every record the extraction makes names its run and agrees with
    its table: the dataset, the condition, the customer count and the
    instance type are those of the dataset directory, the instance is
    the normalised file name, the number of iterations is the number
    of rows of the table, the table has the shape of the extraction,
    and a record with an empty table has zero cuts. *)
Theorem record_agrees_with_table
        (dataset_ condition_ file_name : string) (data : json) (r : run_record) :
  make_record dataset_ condition_ file_name data = Ok r ->
  dataset r = dataset_
  /\ condition r = condition_
  /\ num_cust r = num_cust_of dataset_
  /\ instance_type r = instance_type_of dataset_
  /\ instance r = extract_instance_name file_name
  /\ iterations r = nrows (iteration_data r)
  /\ process_iteration_data data = Ok (iteration_data r)
  /\ (table_empty (iteration_data r) = true -> total_cuts r = JNum Num.zero).
Proof.
  intros H. apply make_record_inv in H.
  destruct H as (d & table & root & final & objective & time & total & n & cuts
                 & -> & Ht & Hf & Hl & Hn & Hc & ->).
  cbn [dataset condition num_cust instance_type instance iterations iteration_data
       total_cuts].
  repeat split; auto.
  - rewrite (iteration_table_rows _ _ Ht) in Hn. now inversion Hn.
  - intros He. unfold total_cuts_of in Hc. rewrite He in Hc. now inversion Hc.
Qed.

Lemma record_agrees_with_table_witness :
  dataset record_good = "RC1_numCust_25"
  /\ condition record_good = "normal"
  /\ num_cust record_good = num_cust_of "RC1_numCust_25"
  /\ instance_type record_good = instance_type_of "RC1_numCust_25"
  /\ instance record_good = extract_instance_name "jy_rc101.txt"
  /\ iterations record_good = nrows (iteration_data record_good)
  /\ process_iteration_data
       (JObj [("lblp_lower", JArr [JNum 10%float; JNum 12%float; JNum 15%float]);
              ("lp_time_LB", JArr [JNum 1%float; JNum 2%float; JNum 3%float]);
              ("lp_time_project", JArr [JNum 0.5%float; JNum 0.5%float; JNum 0.5%float]);
              ("OUR_ilp_time", JNum 3%float)])
     = Ok (iteration_data record_good)
  /\ (table_empty (iteration_data record_good) = true ->
      total_cuts record_good = JNum Num.zero).
Proof.
  apply (record_agrees_with_table "RC1_numCust_25" "normal" "jy_rc101.txt").
  vm_compute. reflexivity.
Defined.

(* ================================================================= *)
(** ** Cumulative time and the total LP time *)

Lemma well_shaped_lower data :
  well_shaped data = true ->
  exists lower, dict_get_default "lblp_lower" (JArr []) data = JArr lower.
Proof.
  intros H. unfold dict_get_default.
  destruct (dict_get "lblp_lower" data) as [v|] eqn:E; [|eauto].
  destruct (well_shaped_array data "lblp_lower" v H) as [l ->]; simpl; eauto.
Qed.

(** The steps of the extraction on a document of the data model's
    shape with rows. *)
Lemma iteration_table_pipeline data lower :
  well_shaped data = true ->
  dict_get_default "lblp_lower" (JArr []) data = JArr lower ->
  lower <> [] ->
  exists df,
    iteration_table data = add_cumulative_time (List.length lower) df
    /\ forall name, In name core_arrays ->
         column name df = Some (source_or_missing data (List.length lower) name).
Proof.
  intros Hshape Hlower Hne.
  set (n := List.length lower).
  assert (Hn : Nat.eqb n 0 = false).
  { apply Nat.eqb_neq. unfold n. destruct lower; [congruence | discriminate]. }
  assert (Hmem : dict_mem "lblp_lower" data = true).
  { unfold dict_mem. unfold dict_get_default in Hlower.
    destruct (dict_get "lblp_lower" data); [reflexivity|].
    inversion Hlower. congruence. }
  set (core := fold_left
                 (fun t name => set_column name (source_or_missing data n name) t)
                 core_arrays (new_table n)).
  exists (add_cut_columns data n (add_stage_columns data n core)). split.
  - unfold iteration_table.
    rewrite Hmem, Hlower. cbn [negb py_len bind]. fold n. rewrite Hn.
    rewrite add_core_columns_shaped by assumption. reflexivity.
  - intros name Hin.
    rewrite column_after_cuts, column_after_stages by (simpl; tauto).
    now apply column_after_core.
Qed.

Lemma process_shaped_ok data :
  well_shaped data = true -> exists t, process_iteration_data (JObj data) = Ok t.
Proof.
  intros Hshape. destruct (well_shaped_lower data Hshape) as [lower Hlower].
  destruct lower as [|x lower].
  - exists empty_table. apply iteration_table_empty.
    unfold dict_get_default in Hlower.
    destruct (dict_get "lblp_lower" data) as [v|]; [right; now subst | now left].
  - destruct (iteration_table_pipeline data (x :: lower) Hshape Hlower) as (df & Hrun & Hcol);
      [discriminate|].
    simpl process_iteration_data. rewrite Hrun. unfold add_cumulative_time.
    rewrite !Hcol by (simpl; tauto).
    destruct (series_add_numbers
                (fillna0 (source_or_missing data (List.length (x :: lower)) "lp_time_LB"))
                (fillna0 (source_or_missing data (List.length (x :: lower)) "lp_time_project")))
      as (total & Htotal & Hnum);
      try (apply fillna0_numbers, source_or_missing_numbers; simpl; auto).
    rewrite Htotal. cbn [bind]. unfold cumsum.
    destruct (cumsum_from_numbers None total I Hnum) as [c ->]. cbn [bind]. eauto.
Qed.









(** On a document of the data model's shape with rows, the cumulative
    time is the sequence of prefix sums of the step times, where the
    step time of a row adds the row's two LP times and reads a missing
    one as zero; an LP time array that is absent, or whose length
    differs from the number of rows, counts as zero in every row.  (No
    step time may be undefined, as the sum of two opposite infinities
    is.) *)
Theorem cumulative_time_prefix_sums (data : dict) (lower : list json) :
  well_shaped data = true ->
  dict_get_default "lblp_lower" (JArr []) data = JArr lower ->
  lower <> [] ->
  forallb (fun x => negb (Num.is_nan x))
    (step_times (source_or_missing data (List.length lower) "lp_time_LB")
                (source_or_missing data (List.length lower) "lp_time_project")) = true ->
  exists t,
    process_iteration_data (JObj data) = Ok t
    /\ column "cumulative_time" t
       = Some (map JNum
                 (prefix_sums
                    (step_times (source_or_missing data (List.length lower) "lp_time_LB")
                                (source_or_missing data (List.length lower) "lp_time_project")))).
Proof.
  intros Hshape Hlower Hne Hnan.
  destruct (iteration_table_pipeline data lower Hshape Hlower Hne) as (df & Hrun & Hcol).
  simpl process_iteration_data. rewrite Hrun.
  rewrite (cumulative_time_running_sum (List.length lower) df
             (source_or_missing data (List.length lower) "lp_time_LB")
             (source_or_missing data (List.length lower) "lp_time_project"));
    try (apply Hcol; simpl; tauto);
    try (apply source_or_missing_numbers; simpl; auto);
    try exact Hnan.
  eexists. split; [reflexivity | apply column_set_same].
Qed.

Lemma cumulative_time_prefix_sums_witness :
  exists t,
    process_iteration_data (JObj doc_no_project) = Ok t
    /\ column "cumulative_time" t
       = Some (map JNum
                 (prefix_sums
                    (step_times
                       (source_or_missing doc_no_project
                          (List.length [JNum 1%float; JNum 2%float]) "lp_time_LB")
                       (source_or_missing doc_no_project
                          (List.length [JNum 1%float; JNum 2%float]) "lp_time_project")))).
Proof.
  apply (cumulative_time_prefix_sums doc_no_project [JNum 1%float; JNum 2%float]).
  - reflexivity.
  - reflexivity.
  - discriminate.
  - vm_compute. reflexivity.
Defined.

Lemma add_all_null a l :
  forallb number_or_null l = true -> In JNull l ->
  add_all (JNum a) l = Raise TypeError.
Proof.
  revert a. induction l as [|x l IH]; intros a Hl Hin; [contradiction|].
  simpl in Hl. apply andb_prop in Hl. destruct Hl as [Hx Hl].
  destruct x; try discriminate.
  - reflexivity.
  - destruct Hin as [Hin|Hin]; [discriminate|]. simpl. now apply IH.
Qed.

Lemma add_all_numbers_or_null a l :
  forallb number_or_null l = true ->
  (exists x, add_all (JNum a) l = Ok (JNum x)) \/ add_all (JNum a) l = Raise TypeError.
Proof.
  revert a. induction l as [|x l IH]; intros a Hl; [left; simpl; eauto|].
  simpl in Hl. apply andb_prop in Hl. destruct Hl as [Hx Hl].
  destruct x; try discriminate; [now right|]. simpl. now apply IH.
Qed.

Lemma final_lb_of_shaped data :
  well_shaped data = true -> exists v, final_lb_of (JObj data) = Ok v.
Proof.
  intros H. destruct (dict_get "lblp_lower" data) as [v|] eqn:E.
  - destruct (well_shaped_array data "lblp_lower" v H) as [l ->]; simpl; auto.
    rewrite (final_lb_of_array data l E). eauto.
  - rewrite (final_lb_of_absent data E). eauto.
Qed.

Lemma lp_array_shaped data name :
  well_shaped data = true -> In name ["lp_time_LB"; "lp_time_project"] ->
  exists l, dict_get_default name (JArr []) data = JArr l
            /\ forallb number_or_null l = true
            /\ forall l', dict_get name data = Some (JArr l') -> l' = l.
Proof.
  intros H Hin. unfold dict_get_default.
  destruct (dict_get name data) as [v|] eqn:E.
  - assert (Hc : In name core_arrays) by (simpl in *; tauto).
    destruct (well_shaped_array data name v H Hc E) as [l ->].
    exists l. split; [reflexivity|]. split; [eapply well_shaped_numbers; eauto|].
    intros l' Hl. now inversion Hl.
  - exists []. split; [reflexivity|]. split; [reflexivity|]. intros l' Hl. discriminate.
Qed.

(** A run document of the data model's shape in which an LP time
    array holds a missing value is never recorded: the sum of that
    array raises [TypeError], the record is not made, and the loader
    passes the run over. *)
Theorem null_lp_time_drops_run
        (dataset_ condition_ file_name content name : string)
        (data : dict) (l : list json) :
  well_shaped data = true ->
  In name ["lp_time_LB"; "lp_time_project"] ->
  dict_get name data = Some (JArr l) ->
  In JNull l ->
  parse_custom_json content = Ok (JObj data) ->
  total_lp_time_of (JObj data) = Raise TypeError
  /\ make_record dataset_ condition_ file_name (JObj data) = Raise TypeError
  /\ load_entry dataset_ condition_ (file_name, File (Some content)) = None.
Proof.
  intros Hshape Hname Hget Hnull Hparse.
  assert (Htotal : total_lp_time_of (JObj data) = Raise TypeError).
  { unfold total_lp_time_of. cbn [py_get bind].
    destruct (lp_array_shaped data "lp_time_LB" Hshape) as (lb & -> & Hlb & Elb);
      [simpl; auto|].
    destruct (lp_array_shaped data "lp_time_project" Hshape) as (pr & -> & Hpr & Epr);
      [simpl; auto|].
    cbn [py_sum].
    destruct Hname as [<-|[<-|[]]].
    - rewrite (Elb l Hget) in Hnull. now rewrite (add_all_null _ _ Hlb Hnull).
    - destruct (add_all_numbers_or_null Num.zero lb Hlb) as [[x ->]| ->]; [|reflexivity].
      cbn [bind]. rewrite (Epr l Hget) in Hnull. now rewrite (add_all_null _ _ Hpr Hnull). }
  assert (Hrecord : make_record dataset_ condition_ file_name (JObj data) = Raise TypeError).
  { unfold make_record.
    destruct (process_shaped_ok data Hshape) as [t ->].
    destruct (final_lb_of_shaped data Hshape) as [v ->].
    cbn [bind py_get]. now rewrite Htotal. }
  repeat split; auto.
  unfold load_entry, entry_data, read_one_file, file_text.
  rewrite Hparse, Hrecord. now destruct (truthy (JObj data)).
Qed.

Lemma null_lp_time_drops_run_witness :
  total_lp_time_of
    (JObj [("lblp_lower", JArr [JNum 1%float]); ("lp_time_LB", JArr [JNull]);
           ("lp_time_project", JArr [JNum 0.5%float])]) = Raise TypeError
  /\ make_record "C1_numCust_25" "normal" "jy_c101.txt"
       (JObj [("lblp_lower", JArr [JNum 1%float]); ("lp_time_LB", JArr [JNull]);
              ("lp_time_project", JArr [JNum 0.5%float])]) = Raise TypeError
  /\ load_entry "C1_numCust_25" "normal" ("jy_c101.txt", File (Some doc_nan_time)) = None.
Proof.
  apply (null_lp_time_drops_run "C1_numCust_25" "normal" "jy_c101.txt" doc_nan_time
           "lp_time_LB"
           [("lblp_lower", JArr [JNum 1%float]); ("lp_time_LB", JArr [JNull]);
            ("lp_time_project", JArr [JNum 0.5%float])]
           [JNull]).
  - reflexivity.
  - simpl. left. reflexivity.
  - reflexivity.
  - simpl. left. reflexivity.
  - vm_compute. reflexivity.
Defined.

(* ================================================================= *)
(** ** The catalog as a whole *)

Lemma load_files_records dataset_ condition_ files acc :
  load_files dataset_ condition_ files acc
  = acc ++ records_of_files dataset_ condition_ files.
Proof.
  revert acc. induction files as [|entry files IH]; intros acc.
  - simpl. now rewrite app_nil_r.
  - rewrite load_files_cons, IH. unfold records_of_files. cbn [flat_map].
    destruct (load_entry dataset_ condition_ entry); [|reflexivity].
    now rewrite <- app_assoc.
Qed.

Lemma load_conditions_records dataset_ entries conditions acc :
  load_conditions dataset_ (Dir entries) conditions acc
  = acc ++ flat_map (fun c =>
                       match lookup c entries with
                       | Some (Dir files) =>
                         records_of_files dataset_ c (glob_prefix "jy_" files)
                       | _ => []
                       end) conditions.
Proof.
  unfold load_conditions. revert acc.
  induction conditions as [|c conditions IH]; intros acc; cbn [fold_left flat_map].
  - now rewrite app_nil_r.
  - rewrite IH. cbn [child].
    destruct (lookup c entries) as [[content|files|files|]|]; rewrite ?app_nil_l; try reflexivity.
    now rewrite load_files_records, <- app_assoc.
Qed.

Lemma load_dataset_records base_path dataset_ acc :
  (forall n, child dataset_ base_path = Some n -> exists entries, n = Dir entries) ->
  load_dataset base_path dataset_ acc = Ok (acc ++ records_of_dataset base_path dataset_).
Proof.
  intros Hdir. unfold load_dataset, records_of_dataset.
  destruct (child dataset_ base_path) as [n|]; [|now rewrite app_nil_r].
  destruct (Hdir n eq_refl) as [entries ->].
  cbn [iterdir bind]. now rewrite load_conditions_records.
Qed.

Lemma load_dataset_raises base_path dataset_ acc n e :
  child dataset_ base_path = Some n -> iterdir n = Raise e ->
  load_dataset base_path dataset_ acc = Raise e.
Proof.
  intros Hc Hd. unfold load_dataset. rewrite Hc, Hd. reflexivity.
Qed.

Lemma load_datasets_records base_path names acc :
  (forall d n, In d names -> child d base_path = Some n -> exists entries, n = Dir entries) ->
  load_datasets base_path names acc
  = Ok (acc ++ flat_map (records_of_dataset base_path) names).
Proof.
  revert acc. induction names as [|d names IH]; intros acc H; cbn [load_datasets flat_map].
  - now rewrite app_nil_r.
  - rewrite load_dataset_records by (intros n; apply H; now left).
    cbn [bind]. rewrite IH by (intros d' n Hin; apply H; now right).
    now rewrite <- app_assoc.
Qed.

Lemma listing_cases (n : node) :
  (exists entries, n = Dir entries) \/ (exists e, iterdir n = Raise e).
Proof.
  destruct n; [right|left|right|right]; eauto; eexists; reflexivity.
Qed.

Lemma load_datasets_cases base_path names acc :
  match load_datasets base_path names acc with
  | Ok df =>
    df = acc ++ flat_map (records_of_dataset base_path) names
    /\ forall d n, In d names -> child d base_path = Some n -> exists entries, n = Dir entries
  | Raise e =>
    exists before d after n,
      names = before ++ d :: after
      /\ (forall d' n', In d' before -> child d' base_path = Some n' ->
                        exists entries, n' = Dir entries)
      /\ child d base_path = Some n
      /\ iterdir n = Raise e
  end.
Proof.
  revert acc. induction names as [|d0 names IH]; intros acc; cbn [load_datasets].
  - split; [now rewrite app_nil_r | intros d n []].
  - assert (Hdec : (forall n, child d0 base_path = Some n -> exists entries, n = Dir entries)
                   \/ exists n e, child d0 base_path = Some n /\ iterdir n = Raise e).
    { destruct (child d0 base_path) as [n0|]; [|left; discriminate].
      destruct (listing_cases n0) as [H|[e H]].
      - left. intros n Hn. inversion Hn; subst. exact H.
      - right. eauto. }
    destruct Hdec as [Hdir|(n & e & Hc & He)].
    + rewrite (load_dataset_records _ _ _ Hdir). cbn [bind].
      specialize (IH (acc ++ records_of_dataset base_path d0)).
      destruct (load_datasets base_path names (acc ++ records_of_dataset base_path d0))
        as [df|e].
      * destruct IH as [-> Hall]. split.
        -- cbn [flat_map]. now rewrite app_assoc.
        -- intros d n [<-|Hin] Hc; eauto.
      * destruct IH as (before & d & after & n & -> & Hbefore & Hc & He).
        exists (d0 :: before), d, after, n. repeat split; auto.
        intros d' n' [<-|Hin] Hc'; eauto.
    + rewrite (load_dataset_raises _ _ _ n e Hc He). cbn [bind].
      exists [], d0, names, n. repeat split; auto. intros d' n' [].
Qed.

Lemma load_cases (base_path : node) :
  match load_ablation_data (Some base_path) with
  | Ok df =>
    df = flat_map (records_of_dataset base_path) datasets
    /\ forall d n, In d datasets -> child d base_path = Some n -> exists entries, n = Dir entries
  | Raise e =>
    exists before d after n,
      datasets = before ++ d :: after
      /\ (forall d' n', In d' before -> child d' base_path = Some n' ->
                        exists entries, n' = Dir entries)
      /\ child d base_path = Some n
      /\ iterdir n = Raise e
  end.
Proof.
  unfold load_ablation_data. exact (load_datasets_cases base_path datasets []).
Qed.

(** The load of an existing base directory raises exactly when the
    listing of a dataset directory raises, and passes on the exception
    of the first such listing in the order of the dataset list:
    [NotADirectoryError] where the name exists and is no directory,
    [PermissionError] where the directory may not be listed (the
    listing stands before the [try] block).  In every other case the
    load returns the catalog, which lists the records dataset by
    dataset in the order of the dataset list, within a dataset
    condition by condition in the order of the condition list, within
    a condition in the order of the directory listing. *)
Theorem load_result (base_path : node) :
  match load_ablation_data (Some base_path) with
  | Ok df =>
    df = flat_map (records_of_dataset base_path) datasets
    /\ forall d n, In d datasets -> child d base_path = Some n -> exists entries, n = Dir entries
  | Raise e =>
    exists before d after n,
      datasets = before ++ d :: after
      /\ (forall d' n', In d' before -> child d' base_path = Some n' ->
                        exists entries, n' = Dir entries)
      /\ child d base_path = Some n
      /\ iterdir n = Raise e
  end.
Proof. apply load_cases. Qed.

(** A dataset directory that may not be listed and a dataset name that
    is a file stop the load; a base directory that may not be listed
    does not, since it is only searched. *)
Lemma load_unlisted_directories :
  load_ablation_data (Some (Dir [("C1_numCust_25", Closed [])])) = Raise PermissionError
  /\ load_ablation_data (Some (Dir [("C1_numCust_25", File None)])) = Raise NotADirectoryError
  /\ load_ablation_data
       (Some (Closed [("RC1_numCust_25",
                       Dir [("normal", Dir [("jy_rc101.txt", File (Some doc_good))])])]))
     = Ok [record_good]
  /\ load_ablation_data
       (Some (Dir [("RC1_numCust_25",
                    Dir [("normal", Closed [("jy_rc101.txt", File (Some doc_good))])])]))
     = Ok [].
Proof. repeat split; vm_compute; reflexivity. Qed.

Lemma num_cust_of_values dataset_ : In (num_cust_of dataset_) [25; 50; 100].
Proof.
  unfold num_cust_of.
  destruct (Text.contains "100" dataset_); [simpl; tauto|].
  destruct (Text.contains "50" dataset_); simpl; tauto.
Qed.

Lemma load_entry_catalogued dataset_ condition_ file_name file_path r :
  In dataset_ datasets -> In condition_ base_conditions ->
  Text.startswith "jy_" file_name = true ->
  load_entry dataset_ condition_ (file_name, file_path) = Some r ->
  catalogued r.
Proof.
  intros Hd Hc Hjy H. unfold load_entry in H.
  destruct (entry_data file_path) as [data|]; [|discriminate].
  destruct (negb (truthy data)); [discriminate|].
  destruct (make_record dataset_ condition_ file_name data) as [r0|] eqn:E; [|discriminate].
  inversion H; subst r0. apply make_record_inv in E.
  destruct E as (d & table & root & final & objective & time & total & n & cuts
                 & -> & Ht & Hf & Hl & Hn & Hcuts & ->).
  unfold catalogued.
  cbn [dataset condition num_cust instance_type instance iterations iteration_data].
  repeat split; auto using num_cust_of_values.
  - rewrite (iteration_table_rows _ _ Ht) in Hn. now inversion Hn.
  - eauto.
Qed.

Lemma records_of_dataset_catalogued base_path dataset_ r :
  In dataset_ datasets -> In r (records_of_dataset base_path dataset_) -> catalogued r.
Proof.
  intros Hd. unfold records_of_dataset.
  destruct (child dataset_ base_path) as [[content|entries|entries|]|]; try contradiction.
  rewrite in_flat_map. intros (c & Hc & Hr).
  unfold conditions_of in Hc. apply filter_In in Hc. destruct Hc as [Hc _].
  destruct (lookup c entries) as [[content|files|files|]|]; try contradiction.
  unfold records_of_files in Hr. rewrite in_flat_map in Hr.
  destruct Hr as ([file_name file_path] & Hin & Hr).
  unfold glob_prefix in Hin. apply filter_In in Hin. destruct Hin as [_ Hjy].
  destruct (load_entry dataset_ c (file_name, file_path)) as [r0|] eqn:E; [|contradiction].
  destruct Hr as [<-|[]]. eapply load_entry_catalogued; eauto.
Qed.

(** Every record of a loaded catalog belongs to a dataset of the
    dataset list and a condition of the condition list, has a customer
    count of 25, 50 or 100 and an instance type fixed by its dataset
    name, is named after a [jy_*] entry, and counts as many iterations
    as its table has rows. *)
Theorem loaded_records_catalogued (base_dir : option node) (df : list run_record)
        (r : run_record) :
  load_ablation_data base_dir = Ok df ->
  In r df ->
  catalogued r.
Proof.
  intros H Hin. destruct base_dir as [base_path|]; [|inversion H; subst; contradiction].
  pose proof (load_cases base_path) as L. rewrite H in L. destruct L as [-> _].
  apply in_flat_map in Hin. destruct Hin as (d & Hd & Hr).
  eapply records_of_dataset_catalogued; eauto.
Qed.

Lemma loaded_records_catalogued_witness : catalogued record_good.
Proof.
  apply (loaded_records_catalogued
           (Some (corpus "RC1_numCust_25" "normal" [("jy_rc101.txt", File (Some doc_good))]))
           [record_good] record_good).
  - vm_compute. reflexivity.
  - simpl. left. reflexivity.
Defined.

Lemma lookup_app_other name other x entries1 entries2 :
  name <> other ->
  lookup name (entries1 ++ (other, x) :: entries2) = lookup name (entries1 ++ entries2).
Proof.
  intros Hne. induction entries1 as [|[n0 x0] entries1 IH]; simpl.
  - apply String.eqb_neq in Hne. now rewrite Hne.
  - now rewrite IH.
Qed.

Lemma conditions_of_other other x entries1 entries2 :
  ~ In other base_conditions ->
  conditions_of (entries1 ++ (other, x) :: entries2) = conditions_of (entries1 ++ entries2).
Proof.
  intros Hn. unfold conditions_of. apply filter_ext_in. intros c Hc.
  assert (Hne : String.eqb c other = false)
    by (apply String.eqb_neq; intros ->; contradiction).
  rewrite !filter_app, !map_app, !existsb_app. f_equal.
  cbn [filter snd]. destruct (is_dir x); [|reflexivity].
  cbn [map fst existsb]. now rewrite Hne.
Qed.

Lemma flat_map_equal_on {A B : Type} (f g : A -> list B) (l : list A) :
  (forall x, In x l -> f x = g x) -> flat_map f l = flat_map g l.
Proof.
  induction l as [|x l IH]; intros H; simpl; [reflexivity|].
  rewrite (H x) by now left. f_equal. apply IH. intros y Hy. apply H. now right.
Qed.

Lemma lookup_replace name k x y entries1 entries2 :
  lookup name (entries1 ++ (k, x) :: entries2) = lookup name (entries1 ++ (k, y) :: entries2)
  \/ (name = k
      /\ lookup name (entries1 ++ (k, x) :: entries2) = Some x
      /\ lookup name (entries1 ++ (k, y) :: entries2) = Some y).
Proof.
  induction entries1 as [|[n0 x0] entries1 IH]; simpl.
  - destruct (String.eqb_spec name k); [right; auto | left; reflexivity].
  - destruct (String.eqb name n0); [left; reflexivity | exact IH].
Qed.

Lemma conditions_of_replace k x y entries1 entries2 :
  is_dir x = is_dir y ->
  conditions_of (entries1 ++ (k, x) :: entries2) = conditions_of (entries1 ++ (k, y) :: entries2).
Proof.
  intros H. unfold conditions_of. apply filter_ext. intros c.
  rewrite !filter_app. cbn [filter snd]. rewrite H.
  destruct (is_dir y); [|reflexivity].
  now rewrite !map_app.
Qed.

Lemma load_datasets_equal base_path base_path' names acc :
  (forall d acc', load_dataset base_path d acc' = load_dataset base_path' d acc') ->
  load_datasets base_path names acc = load_datasets base_path' names acc.
Proof.
  intros H. revert acc. induction names as [|d names IH]; intros acc; cbn [load_datasets].
  - reflexivity.
  - rewrite H. destruct (load_dataset base_path' d acc); cbn [bind]; auto.
Qed.

Lemma load_dataset_listed base_path d entries acc :
  child d base_path = Some (Dir entries) ->
  load_dataset base_path d acc
  = Ok (load_conditions d (Dir entries) (conditions_of entries) acc).
Proof.
  intros H. unfold load_dataset. rewrite H. reflexivity.
Qed.

(** A dataset directory may be exchanged for one that gives the same
    records, wherever it stands below the base directory. *)
Lemma load_replaced_dataset datasets1 datasets2 dataset_ entries entries' :
  (forall acc, load_conditions dataset_ (Dir entries) (conditions_of entries) acc
               = load_conditions dataset_ (Dir entries') (conditions_of entries') acc) ->
  load_ablation_data (Some (Dir (datasets1 ++ (dataset_, Dir entries) :: datasets2)))
  = load_ablation_data (Some (Dir (datasets1 ++ (dataset_, Dir entries') :: datasets2))).
Proof.
  intros H. unfold load_ablation_data. apply load_datasets_equal. intros d acc.
  destruct (lookup_replace d dataset_ (Dir entries) (Dir entries') datasets1 datasets2)
    as [E|(-> & E1 & E2)].
  - unfold load_dataset. cbn [child]. now rewrite E.
  - rewrite (load_dataset_listed _ _ entries) by exact E1.
    rewrite (load_dataset_listed _ _ entries') by exact E2.
    now rewrite H.
Qed.

(** What lies outside the layout is ignored, wherever it lies below
    the base directory: an entry of a condition directory whose name
    does not start with [jy_], and an entry of a dataset directory
    whose name is no recognised condition, leave the outcome of the
    load as it is without them. *)
Theorem entries_outside_layout_ignored
        (dataset_ condition_ name other : string) (n x : node)
        (datasets1 datasets2 conditions1 conditions2 files1 files2 : list (string * node)) :
  Text.startswith "jy_" name = false ->
  ~ In other base_conditions ->
  load_ablation_data
    (Some (Dir (datasets1
                ++ (dataset_,
                    Dir (conditions1
                         ++ (condition_, Dir (files1 ++ (name, n) :: files2))
                         :: conditions2))
                :: datasets2)))
  = load_ablation_data
      (Some (Dir (datasets1
                  ++ (dataset_,
                      Dir (conditions1 ++ (condition_, Dir (files1 ++ files2)) :: conditions2))
                  :: datasets2)))
  /\ load_ablation_data
       (Some (Dir (datasets1
                   ++ (dataset_, Dir (conditions1 ++ (other, x) :: conditions2))
                   :: datasets2)))
     = load_ablation_data
         (Some (Dir (datasets1 ++ (dataset_, Dir (conditions1 ++ conditions2)) :: datasets2))).
Proof.
  intros Hname Hother. split; apply load_replaced_dataset; intros acc.
  - rewrite (conditions_of_replace condition_ (Dir (files1 ++ (name, n) :: files2))
               (Dir (files1 ++ files2))) by reflexivity.
    rewrite !load_conditions_records. f_equal. apply flat_map_equal_on. intros c _.
    destruct (lookup_replace c condition_ (Dir (files1 ++ (name, n) :: files2))
                (Dir (files1 ++ files2)) conditions1 conditions2)
      as [->|(_ & -> & ->)]; [reflexivity|].
    f_equal. unfold glob_prefix. rewrite !filter_app. cbn [filter fst]. now rewrite Hname.
  - rewrite (conditions_of_other _ _ _ _ Hother).
    rewrite !load_conditions_records. f_equal. apply flat_map_equal_on. intros c Hin.
    rewrite lookup_app_other; [reflexivity|].
    intros ->. apply Hother. unfold conditions_of in Hin.
    apply filter_In in Hin. tauto.
Qed.

Lemma entries_outside_layout_ignored_witness :
  load_ablation_data
    (Some (Dir ([("C1_numCust_25", Dir [("normal", Dir [("jy_c101.txt", File (Some doc_good))])])]
                ++ ("RC1_numCust_25",
                    Dir ([("no_cuts_or_graphs", Dir [])]
                         ++ ("normal",
                             Dir ([("jy_rc101.txt", File (Some doc_good))]
                                  ++ ("notes.txt", File None) :: []))
                         :: []))
                :: [("RC2_numCust_50", Dir [])])))
  = load_ablation_data
      (Some (Dir ([("C1_numCust_25", Dir [("normal", Dir [("jy_c101.txt", File (Some doc_good))])])]
                  ++ ("RC1_numCust_25",
                      Dir ([("no_cuts_or_graphs", Dir [])]
                           ++ ("normal", Dir ([("jy_rc101.txt", File (Some doc_good))] ++ []))
                           :: []))
                  :: [("RC2_numCust_50", Dir [])])))
  /\ load_ablation_data
       (Some (Dir ([("C1_numCust_25", Dir [("normal", Dir [("jy_c101.txt", File (Some doc_good))])])]
                   ++ ("RC1_numCust_25",
                       Dir ([("no_cuts_or_graphs", Dir [])]
                            ++ ("scratch", Dir [("jy_rc102.txt", File (Some doc_good))])
                            :: []))
                   :: [("RC2_numCust_50", Dir [])])))
     = load_ablation_data
         (Some (Dir ([("C1_numCust_25", Dir [("normal", Dir [("jy_c101.txt", File (Some doc_good))])])]
                     ++ ("RC1_numCust_25", Dir ([("no_cuts_or_graphs", Dir [])] ++ []))
                     :: [("RC2_numCust_50", Dir [])]))).
Proof.
  apply (entries_outside_layout_ignored "RC1_numCust_25" "normal" "notes.txt" "scratch").
  - reflexivity.
  - simpl. intros [H|[H|[H|[H|[H|[]]]]]]; discriminate H.
Defined.

(** A run kept in a [jy_*] directory is loaded as the file read from
    that directory would be under the directory's own name: the
    instance is named after the directory, the name of the file inside
    plays no part. *)
Theorem directory_run_named_after_directory
        (dataset_ condition_ name inner_name : string) (content : option string)
        (entries : list (string * node)) (all_results : list run_record) :
  pick_file entries = Some (inner_name, File content) ->
  load_entry dataset_ condition_ (name, Dir entries)
  = load_entry dataset_ condition_ (name, File content)
  /\ load_files dataset_ condition_ [(name, Dir entries)] all_results
     = load_files dataset_ condition_ [(name, File content)] all_results
  /\ forall r, load_entry dataset_ condition_ (name, Dir entries) = Some r ->
               instance r = extract_instance_name name.
Proof.
  intros Hpick.
  assert (H : load_entry dataset_ condition_ (name, Dir entries)
              = load_entry dataset_ condition_ (name, File content)).
  { unfold load_entry, entry_data. now rewrite Hpick. }
  split; [exact H|]. split; [now rewrite !load_files_cons, H|].
  intros r Hr. unfold load_entry in Hr.
  destruct (entry_data (Dir entries)) as [data|]; [|discriminate].
  destruct (negb (truthy data)); [discriminate|].
  destruct (make_record dataset_ condition_ name data) as [r0|] eqn:E; [|discriminate].
  inversion Hr; subst r0. apply make_record_inv in E.
  destruct E as (d & table & root & final & objective & time & total & n & cuts
                 & _ & _ & _ & _ & _ & _ & ->).
  reflexivity.
Qed.

Lemma directory_run_named_after_directory_witness :
  load_entry "RC1_numCust_25" "normal"
    ("jy_rc101", Dir [("result.txt", File (Some doc_no_iterations));
                      ("result.json", File (Some doc_good))])
  = load_entry "RC1_numCust_25" "normal" ("jy_rc101", File (Some doc_good))
  /\ load_files "RC1_numCust_25" "normal"
       [("jy_rc101", Dir [("result.txt", File (Some doc_no_iterations));
                          ("result.json", File (Some doc_good))])] []
     = load_files "RC1_numCust_25" "normal" [("jy_rc101", File (Some doc_good))] []
  /\ forall r,
       load_entry "RC1_numCust_25" "normal"
         ("jy_rc101", Dir [("result.txt", File (Some doc_no_iterations));
                           ("result.json", File (Some doc_good))]) = Some r ->
       instance r = extract_instance_name "jy_rc101".
Proof.
  apply (directory_run_named_after_directory "RC1_numCust_25" "normal" "jy_rc101"
           "result.json" (Some doc_good)).
  reflexivity.
Defined.

(* ================================================================= *)
(** ** Texts the rewrites leave alone *)

Lemma text_chars s : Text.text (Text.chars s) = s.
Proof. apply string_of_list_ascii_of_string. Qed.

Lemma chars_text l : Text.chars (Text.text l) = l.
Proof. apply list_ascii_of_string_of_list_ascii. Qed.

Lemma chars_app a b : Text.chars (a ++ b)%string = Text.chars a ++ Text.chars b.
Proof. induction a as [|c a IH]; simpl; [reflexivity | now rewrite IH]. Qed.

Lemma exec_lit_split l prev s n k m :
  Re.exec (Re.lit_chars l) prev s n k = Some m ->
  exists s' prev', s = l ++ s' /\ k prev' s' (List.length l + n) = Some m.
Proof.
  revert prev s n. induction l as [|c l IH]; intros prev s n H.
  - exists s, prev. split; [reflexivity | exact H].
  - cbn [Re.lit_chars Re.exec] in H. destruct s as [|c' s]; [discriminate|].
    destruct (Ascii.eqb_spec c c') as [<-|]; [|discriminate].
    apply IH in H. destruct H as (s' & prev' & -> & H).
    exists s', prev'. split; [reflexivity|].
    simpl. now rewrite Nat.add_succ_r in H.
Qed.

Lemma starts_with_app l s : Text.starts_with l (l ++ s) = true.
Proof. induction l as [|c l IH]; simpl; [reflexivity | now rewrite Ascii.eqb_refl]. Qed.

Lemma occurs_starts p s : Text.starts_with p s = true -> Text.occurs p s = true.
Proof. intros H. destruct s; simpl; now rewrite H. Qed.

Lemma occurs_tail p c s : Text.occurs p (c :: s) = false -> Text.occurs p s = false.
Proof. simpl. intros H. now apply orb_false_elim in H. Qed.

Lemma occurs_cons p c s : Text.occurs p s = true -> Text.occurs p (c :: s) = true.
Proof. simpl. intros ->. apply orb_true_r. Qed.

Lemma occurs_app_left l p s : Text.occurs p s = true -> Text.occurs p (l ++ s) = true.
Proof. induction l; simpl app; auto using occurs_cons. Qed.

Lemma occurs_inside p l1 l2 s : Text.occurs (l1 ++ p ++ l2) s = true -> Text.occurs p s = true.
Proof.
  induction s as [|c s IH].
  - simpl. rewrite orb_false_r. destruct l1; simpl; [|discriminate].
    destruct p; simpl; [reflexivity | discriminate].
  - simpl. intros H. apply orb_prop in H. destruct H as [H|H].
    + assert (Hs : exists s', c :: s = l1 ++ p ++ s').
      { clear IH. revert H. generalize (c :: s). intros s0. revert s0.
        induction l1 as [|a l1 IH1]; simpl.
        - induction p as [|b p IHp]; simpl; intros s0 H; [eauto|].
          destruct s0 as [|b' s0]; [discriminate|].
          apply andb_prop in H. destruct H as [Hb H].
          apply Ascii.eqb_eq in Hb. subst b'.
          destruct (IHp _ H) as [s' ->]. eauto.
        - intros s0 H. destruct s0 as [|a' s0]; [discriminate|].
          apply andb_prop in H. destruct H as [Ha H].
          apply Ascii.eqb_eq in Ha. subst a'.
          destruct (IH1 _ H) as [s' ->]. eauto. }
      destruct Hs as [s' Hs]. change (Text.occurs p (c :: s) = true).
      rewrite Hs. apply occurs_app_left, occurs_starts, starts_with_app.
    + rewrite (IH H). apply orb_true_r.
Qed.

Lemma sub_from_no_match r repl w :
  (forall prev s n, Re.match_at r prev s = Some n -> Text.occurs w s = true) ->
  forall s prev, Text.occurs w s = false -> Re.sub_from r repl prev 0 s = s.
Proof.
  intros Hm s. induction s as [|c s IH]; intros prev Hw; cbn [Re.sub_from].
  - destruct (Re.match_at r prev []) as [n|] eqn:E; [|reflexivity].
    apply Hm in E. congruence.
  - destruct (Re.match_at r prev (c :: s)) as [n|] eqn:E.
    + apply Hm in E. congruence.
    + f_equal. apply IH. eapply occurs_tail; eauto.
Qed.

Lemma word_match w prev s n :
  Re.match_at (Re.Seq Re.WordB (Re.Seq (Re.lit w) Re.WordB)) prev s = Some n ->
  Text.starts_with (Text.chars w) s = true.
Proof.
  unfold Re.match_at, Re.lit. cbn [Re.exec].
  destruct (Re.boundary prev s); [|discriminate].
  intros H. apply exec_lit_split in H. destruct H as (s' & prev' & -> & _).
  apply starts_with_app.
Qed.

Lemma nan_match prev s n :
  Re.match_at nan_re prev s = Some n -> Text.occurs (Text.chars "NaN") s = true.
Proof. intros H. apply occurs_starts. now apply word_match in H. Qed.

Lemma infinity_match prev s n :
  Re.match_at infinity_re prev s = Some n -> Text.occurs (Text.chars "Inf") s = true.
Proof.
  intros H. apply word_match in H. apply occurs_starts in H.
  now apply (occurs_inside (Text.chars "Inf") [] (Text.chars "inity")).
Qed.

Lemma minus_infinity_match prev s n :
  Re.match_at minus_infinity_re prev s = Some n ->
  Text.occurs (Text.chars "Inf") s = true.
Proof.
  intros H. apply word_match in H. apply occurs_starts in H.
  now apply (occurs_inside (Text.chars "Inf") (Text.chars "-") (Text.chars "inity")).
Qed.

Lemma inf_match prev s n :
  Re.match_at inf_re prev s = Some n -> Text.occurs (Text.chars "Inf") s = true.
Proof.
  unfold Re.match_at, inf_re, Re.Opt, Re.lit. cbn [Re.exec].
  destruct (Re.boundary prev s); [|discriminate].
  match goal with
  | |- match ?a with Some _ => _ | None => _ end = _ -> _ => destruct a as [m|] eqn:E
  end.
  - intros _. apply exec_lit_split in E. destruct E as (s1 & p1 & -> & E).
    apply exec_lit_split in E. destruct E as (s2 & p2 & -> & _).
    apply (occurs_app_left (Text.chars "-")), occurs_starts, starts_with_app.
  - intros H. apply exec_lit_split in H. destruct H as (s1 & p1 & -> & _).
    apply occurs_starts, starts_with_app.
Qed.

(** A text in which neither [NaN] nor [Inf] occurs is not changed by
    the rewrites, and is parsed exactly as the plain decoder parses
    it. *)
Theorem clean_text_untouched (json_text : string) :
  Text.contains "NaN" json_text = false ->
  Text.contains "Inf" json_text = false ->
  fix_json_text json_text = json_text
  /\ parse_custom_json json_text = Json.loads json_text.
Proof.
  unfold Text.contains. intros Hnan Hinf.
  assert (H : fix_json_text json_text = json_text).
  { unfold fix_json_text, Re.sub.
    rewrite (sub_from_no_match nan_re _ _ nan_match _ _ Hnan), text_chars.
    rewrite (sub_from_no_match infinity_re _ _ infinity_match _ _ Hinf), text_chars.
    rewrite (sub_from_no_match minus_infinity_re _ _ minus_infinity_match _ _ Hinf),
      text_chars.
    now rewrite (sub_from_no_match inf_re _ _ inf_match _ _ Hinf), text_chars. }
  split; [exact H|]. unfold parse_custom_json. now rewrite H.
Qed.

Lemma clean_text_untouched_witness :
  fix_json_text doc_good = doc_good
  /\ parse_custom_json doc_good = Json.loads doc_good.
Proof. apply (clean_text_untouched doc_good); reflexivity. Defined.

(* ================================================================= *)
(** ** The names of standard run files *)

Lemma at_end_inv s : Re.at_end s = true -> s = [] \/ s = ["010"%char].
Proof.
  destruct s as [|c [|c' s]]; simpl; auto; [|discriminate].
  intros H. apply Ascii.eqb_eq in H. subst. auto.
Qed.

Lemma extension_match prev s n :
  Re.match_at extension_re prev s = Some n ->
  exists ext tail,
    s = ext ++ tail
    /\ (ext = Text.chars ".txt" \/ ext = Text.chars ".json")
    /\ (tail = [] \/ tail = ["010"%char]).
Proof.
  unfold Re.match_at, extension_re, Re.lit. cbn [Re.exec].
  intros H. apply exec_lit_split in H. destruct H as (s1 & p1 & -> & H).
  match type of H with
  | match ?a with Some _ => _ | None => _ end = _ => destruct a as [m|] eqn:E
  end.
  - apply exec_lit_split in E. destruct E as (s2 & p2 & -> & E).
    cbn [Re.exec] in E. destruct (Re.at_end s2) eqn:A; [|discriminate].
    exists (Text.chars ".txt"), s2. split; [reflexivity|]. split; [now left|].
    now apply at_end_inv.
  - apply exec_lit_split in H. destruct H as (s2 & p2 & -> & H).
    cbn [Re.exec] in H. destruct (Re.at_end s2) eqn:A; [|discriminate].
    exists (Text.chars ".json"), s2. split; [reflexivity|]. split; [now right|].
    now apply at_end_inv.
Qed.

Lemma no_extension_match prev q ext :
  q <> [] ->
  ext = Text.chars ".txt" \/ ext = Text.chars ".json" ->
  Re.match_at extension_re prev (q ++ ext) = None.
Proof.
  intros Hq Hext.
  destruct (Re.match_at extension_re prev (q ++ ext)) as [n|] eqn:E; [|reflexivity].
  exfalso. apply extension_match in E.
  destruct E as (ext' & tail & Hs & Hext' & Htail).
  apply (f_equal (@rev ascii)) in Hs. rewrite !rev_app_distr in Hs.
  destruct Hext as [->| ->], Hext' as [->| ->], Htail as [->| ->];
    simpl in Hs; inversion Hs as [Hr];
    apply (f_equal (@List.length ascii)) in Hr; rewrite length_rev in Hr;
    destruct q; simpl in Hr; try discriminate; congruence.
Qed.

Lemma sub_extension prev p ext :
  ext = Text.chars ".txt" \/ ext = Text.chars ".json" ->
  Re.sub_from extension_re [] prev 0 (p ++ ext) = p.
Proof.
  intros Hext. revert prev. induction p as [|c p IH]; intros prev.
  - destruct Hext as [->| ->]; reflexivity.
  - simpl app. cbn [Re.sub_from].
    change (c :: p ++ ext) with ((c :: p) ++ ext).
    rewrite (no_extension_match prev (c :: p) ext) by (auto; discriminate).
    simpl app. f_equal. apply IH.
Qed.

Lemma replace_from_no_occurrence old new s :
  Text.occurs old s = false -> Text.replace_from old new 0 s = s.
Proof.
  induction s as [|c s IH]; intros H; [reflexivity|].
  cbn [Text.replace_from]. simpl in H. apply orb_false_elim in H. destruct H as [Hs Ho].
  simpl in Hs. rewrite Hs. f_equal. now apply IH.
Qed.

Lemma replace_from_skip old new l s :
  Text.replace_from old new (List.length l) (l ++ s) = Text.replace_from old new 0 s.
Proof. induction l as [|c l IH]; simpl; [reflexivity | exact IH]. Qed.

Lemma replace_prefix old x :
  old <> EmptyString ->
  Text.contains old x = false ->
  Text.replace old EmptyString (old ++ x) = x.
Proof.
  unfold Text.contains, Text.replace. intros Hne Hx.
  destruct (Text.chars old) as [|o0 o] eqn:Eo.
  - destruct old; [congruence | discriminate].
  - rewrite chars_app, Eo. cbn [app Text.replace_from].
    replace (Text.starts_with (o0 :: o) (o0 :: o ++ Text.chars x)) with true
      by (symmetry; apply (starts_with_app (o0 :: o))).
    cbn [Text.chars list_ascii_of_string app List.length pred].
    rewrite replace_from_skip, replace_from_no_occurrence by exact Hx.
    apply text_chars.
Qed.

Lemma sub_extension_text p ext :
  ext = ".txt" \/ ext = ".json" ->
  Re.sub extension_re EmptyString (p ++ ext) = p.
Proof.
  intros Hext. unfold Re.sub. rewrite chars_app.
  rewrite sub_extension; [apply text_chars|].
  destruct Hext as [->| ->]; auto.
Qed.

(** C9, as the code has it: the normalizer strips a trailing [.txt]
    or [.json] and then applies the first rule that matches, in the
    order [BACK_jy_] prefix, [_better] suffix, [jy_] prefix, none; the
    rule that applies deletes every occurrence of its marker text in
    the name, not only the leading or trailing one.  So
    [BACK_jy_rc108.txt] gives [rc108_BACK], [jy_rc108_better.json]
    gives [rc108_better], [jy_c101.txt] gives [c101] and [c101.txt]
    gives [c101]; a name that two rules match goes by the earlier
    one. *)
Theorem extract_instance_name_rule_order :
  (forall p ext,
      ext = ".txt" \/ ext = ".json" ->
      Re.sub extension_re EmptyString (p ++ ext) = p)
  /\ (forall filename,
         let base_name := Re.sub extension_re EmptyString filename in
         (Text.startswith "BACK_jy_" base_name = true ->
          extract_instance_name filename
          = (Text.replace "BACK_jy_" EmptyString base_name ++ "_BACK")%string)
         /\ (Text.startswith "BACK_jy_" base_name = false ->
             Text.endswith "_better" base_name = true ->
             extract_instance_name filename
             = (Text.replace "_better" EmptyString
                  (Text.replace "jy_" EmptyString base_name) ++ "_better")%string)
         /\ (Text.startswith "BACK_jy_" base_name = false ->
             Text.endswith "_better" base_name = false ->
             Text.startswith "jy_" base_name = true ->
             extract_instance_name filename = Text.replace "jy_" EmptyString base_name)
         /\ (Text.startswith "BACK_jy_" base_name = false ->
             Text.endswith "_better" base_name = false ->
             Text.startswith "jy_" base_name = false ->
             extract_instance_name filename = base_name))
  /\ extract_instance_name "BACK_jy_rc108.txt" = "rc108_BACK"
  /\ extract_instance_name "jy_rc108_better.json" = "rc108_better"
  /\ extract_instance_name "jy_c101.txt" = "c101"
  /\ extract_instance_name "c101.txt" = "c101"
  /\ extract_instance_name "BACK_jy_rc108_better.txt" = "rc108_better_BACK"
  /\ extract_instance_name "jy_a_jy_b.txt" = "a_b".
Proof.
  split; [exact sub_extension_text|]. split.
  - intros filename base_name. unfold extract_instance_name. fold base_name.
    repeat split.
    + intros ->. reflexivity.
    + intros -> ->. reflexivity.
    + intros -> -> ->. reflexivity.
    + intros -> -> ->. reflexivity.
  - repeat split; reflexivity.
Qed.

Lemma extract_instance_name_rule_order_witness :
  extract_instance_name "BACK_jy_rc108_better.txt"
  = (Text.replace "BACK_jy_" EmptyString "BACK_jy_rc108_better" ++ "_BACK")%string.
Proof.
  apply (proj1 (proj1 (proj2 extract_instance_name_rule_order) "BACK_jy_rc108_better.txt")).
  reflexivity.
Defined.

(** C9, as the specification has it, fails on a name that holds a
    marker a second time: its rules strip the prefix or the suffix
    they test for, the code every occurrence.  On the four names of
    the specification the two agree. *)
Lemma normalizer_deletes_inner_markers :
  map normalize_as_stated
    ["BACK_jy_rc108.txt"; "jy_rc108_better.json"; "jy_c101.txt"; "c101.txt"]
  = ["rc108_BACK"; "rc108_better"; "c101"; "c101"]
  /\ normalize_as_stated "jy_a_jy_b.txt" = "a_jy_b"
  /\ extract_instance_name "jy_a_jy_b.txt" = "a_b"
  /\ normalize_as_stated "BACK_jy_a_BACK_jy_b.txt" = "a_BACK_jy_b_BACK"
  /\ extract_instance_name "BACK_jy_a_BACK_jy_b.txt" = "a_b_BACK"
  /\ normalize_as_stated "a_better_b_better.txt" = "a_better_b_better"
  /\ extract_instance_name "a_better_b_better.txt" = "a_b_better"
  /\ extract_instance_name "jy_a_jy_b.txt" <> normalize_as_stated "jy_a_jy_b.txt".
Proof. repeat split; try reflexivity. vm_compute. discriminate. Qed.

(** The name of a standard run file gives back the instance: for an
    instance name [x] in which [jy_] does not occur,
    [jy_<x>.txt] and [jy_<x>.json] are normalised to [x] (unless
    [jy_<x>] ends in [_better], the case of the rule before), and
    [BACK_jy_<x>.txt] and [BACK_jy_<x>.json] to [<x>_BACK]. *)
Theorem standard_file_names (x ext : string) :
  ext = ".txt" \/ ext = ".json" ->
  Text.contains "jy_" x = false ->
  (Text.endswith "_better" ("jy_" ++ x) = false ->
   extract_instance_name ("jy_" ++ x ++ ext) = x)
  /\ extract_instance_name ("BACK_jy_" ++ x ++ ext) = (x ++ "_BACK")%string.
Proof.
  intros Hext Hjy. split.
  - intros Hbetter. unfold extract_instance_name.
    replace ("jy_" ++ x ++ ext)%string with (("jy_" ++ x) ++ ext)%string by reflexivity.
    rewrite (sub_extension_text _ _ Hext).
    replace (Text.startswith "BACK_jy_" ("jy_" ++ x)) with false by reflexivity.
    rewrite Hbetter.
    replace (Text.startswith "jy_" ("jy_" ++ x)) with true
      by (symmetry; unfold Text.startswith; rewrite chars_app; apply starts_with_app).
    apply replace_prefix; [discriminate | exact Hjy].
  - unfold extract_instance_name.
    replace ("BACK_jy_" ++ x ++ ext)%string with (("BACK_jy_" ++ x) ++ ext)%string
      by reflexivity.
    rewrite (sub_extension_text _ _ Hext).
    replace (Text.startswith "BACK_jy_" ("BACK_jy_" ++ x)) with true
      by (symmetry; unfold Text.startswith; rewrite chars_app; apply starts_with_app).
    rewrite replace_prefix; [reflexivity | discriminate |].
    unfold Text.contains in *.
    destruct (Text.occurs (Text.chars "BACK_jy_") (Text.chars x)) eqn:E; [|reflexivity].
    apply (occurs_inside (Text.chars "jy_") (Text.chars "BACK_") []) in E. congruence.
Qed.

Lemma standard_file_names_witness :
  (Text.endswith "_better" ("jy_" ++ "rc108") = false ->
   extract_instance_name ("jy_" ++ "rc108" ++ ".json") = "rc108")
  /\ extract_instance_name ("BACK_jy_" ++ "rc108" ++ ".json") = ("rc108" ++ "_BACK")%string.
Proof.
  apply (standard_file_names "rc108" ".json").
  - right. reflexivity.
  - reflexivity.
Defined.

(* ================================================================= *)
(** ** What is recorded, and the total of the cuts *)

(** A run file is recorded only if its text parses to a JSON object
    with at least one key from which the record can be made: a text
    that parses to a list, a string, a number, [true], [false], [null]
    or the empty object never enters the catalog. *)
Theorem recorded_runs_are_objects
        (dataset_ condition_ file_name content : string) (r : run_record) :
  load_entry dataset_ condition_ (file_name, File (Some content)) = Some r ->
  exists d,
    parse_custom_json content = Ok (JObj d)
    /\ d <> []
    /\ make_record dataset_ condition_ file_name (JObj d) = Ok r.
Proof.
  unfold load_entry, entry_data, read_one_file, file_text.
  destruct (parse_custom_json content) as [data|e]; [|discriminate].
  destruct (truthy data) eqn:Ht; [|discriminate]. cbn [negb].
  destruct (make_record dataset_ condition_ file_name data) as [r0|] eqn:E; [|discriminate].
  intros H. inversion H; subst r0.
  destruct (make_record_inv _ _ _ _ _ E) as (d & table & root & final & objective & time
                                             & total & n & cuts & -> & _).
  exists d. repeat split; auto. intros ->. discriminate.
Qed.

Lemma recorded_runs_are_objects_witness :
  exists d,
    parse_custom_json doc_good = Ok (JObj d)
    /\ d <> []
    /\ make_record "RC1_numCust_25" "normal" "jy_rc101.txt" (JObj d) = Ok record_good.
Proof.
  apply (recorded_runs_are_objects "RC1_numCust_25" "normal" "jy_rc101.txt" doc_good
           record_good).
  vm_compute. reflexivity.
Defined.

Lemma put_not_nil name c cols : put name c cols <> [].
Proof. destruct cols as [|[n0 c0] cols]; simpl; [|destruct (String.eqb name n0)]; discriminate. Qed.

Lemma add_all_zeros n :
  add_all (JNum Num.zero) (repeat (JNum Num.zero) n) = Ok (JNum Num.zero).
Proof. induction n as [|n IH]; [reflexivity|]. simpl. exact IH. Qed.

Lemma fillna0_nans n : fillna0 (nans n) = repeat (JNum Num.zero) n.
Proof. induction n as [|n IH]; [reflexivity|]. simpl. f_equal. exact IH. Qed.

Lemma filter_zeros n :
  filter (fun x => negb (isna x)) (repeat (JNum Num.zero) n) = repeat (JNum Num.zero) n.
Proof. induction n as [|n IH]; [reflexivity|]. simpl. f_equal. exact IH. Qed.

(** A run whose document has no cut information for its iterations
    (no [cuttingPlaneBendInfo] that is a list with one entry for each
    row) has a total of zero cuts, not a missing one. *)
Theorem total_cuts_without_cut_info (data : dict) (t : table) :
  process_iteration_data (JObj data) = Ok t ->
  (forall items, dict_get "cuttingPlaneBendInfo" data = Some (JArr items) ->
                 List.length items <> nrows t) ->
  total_cuts_of t = Ok (JNum Num.zero).
Proof.
  intros H Hcut. simpl in H.
  destruct (iteration_table_inv _ _ H) as [->|(n & core & c & Hlen & Hn & Hcore & Ht & Hc)];
    [reflexivity|].
  assert (Hr : nrows t = n).
  { rewrite Ht. cbn [nrows set_column]. unfold add_cut_columns, add_stage_columns.
    rewrite !nrows_fold_set_column; try reflexivity.
    - now apply add_core_columns_inv in Hcore.
    - intros t0 [stage_name suffix]. reflexivity. }
  assert (Hcol : column "cut_TOT_gen_cut" t = Some (nans n)).
  { rewrite (column_of_table _ _ _ _ _ Ht "cut_TOT_gen_cut" "cuttingPlaneBendInfo"
               "TOT_gen_cut") by (simpl; tauto).
    unfold record_column.
    destruct (dict_get "cuttingPlaneBendInfo" data) as [[| | | |items|]|] eqn:E;
      try reflexivity.
    destruct (Nat.eqb_spec (List.length items) n) as [Hl|Hl]; [|reflexivity].
    exfalso. apply (Hcut items eq_refl). congruence. }
  unfold total_cuts_of. rewrite Hcol.
  assert (He : table_empty t = false).
  { unfold table_empty. rewrite Hr.
    destruct (Nat.eqb_spec n 0); [contradiction|].
    rewrite Ht. cbn [columns set_column orb].
    pose proof (put_not_nil "cumulative_time" c
                  (columns (add_cut_columns data n (add_stage_columns data n core)))) as Hp.
    destruct (put "cumulative_time" c _); [congruence | reflexivity]. }
  rewrite He. cbn [negb]. unfold series_sum.
  rewrite fillna0_nans, filter_zeros.
  destruct n as [|n]; [contradiction|]. simpl. apply add_all_zeros.
Qed.

Lemma total_cuts_without_cut_info_witness : total_cuts_of table_times = Ok (JNum Num.zero).
Proof.
  apply (total_cuts_without_cut_info doc_times table_times).
  - vm_compute. reflexivity.
  - intros items H. discriminate.
Defined.
